(** * ros2_node_launcher: the configuration resolver of [node_launcher.launch.py]

    A shallow embedding of the three transformations of the launch file:
    - [get_node_config_and_ns]: the namespace resolver,
    - [expand_filenames]: the expander of [package://] and [file://] values,
    - [get_remappings] and [get_remappings_for_actions]: the remapping expander,
    followed by the properties of the specification that concern them.

    Modelling choices.
    - A Python [str] is a Rocq [string]; a character stands for the code point
      of the same number, so the model covers the strings over the code points
      0..255.
    - A Python [dict] is the list of its items in insertion order; its keys are
      strings (the documents are mappings from string keys) and pairwise
      distinct.  Nothing below depends on the distinctness.
    - A loaded document is a tree: no two places share one object.  The
      values are those of JSON; what else a YAML loader can produce (dates,
      binary data) is left out.
    - A raised exception is an [Err] result.  An f-string message is a
      constructor of [message] that carries the interpolated values.
    - [get_package_share_directory] is a parameter of the development: it
      returns the share directory of a package or fails. *)

From Stdlib Require Import String Ascii List Bool Arith ZArith Lia.
Import ListNotations.
Open Scope list_scope.
Open Scope string_scope.

Set Warnings "-register-all".

(** ** Values loaded from YAML *)

Inductive yaml : Type :=
| YNone
| YBool (b : bool)
| YInt (n : Z)
| YFloat (mantissa exponent : Z)
| YStr (s : string)
| YList (l : list yaml)
| YDict (items : list (string * yaml)).

(** [type(v).__name__] *)
Definition type_name (v : yaml) : string :=
  match v with
  | YNone => "NoneType"
  | YBool _ => "bool"
  | YInt _ => "int"
  | YFloat _ _ => "float"
  | YStr _ => "str"
  | YList _ => "list"
  | YDict _ => "dict"
  end.

Definition is_dict (v : yaml) : bool :=
  match v with YDict _ => true | _ => false end.

Definition is_str (v : yaml) : bool :=
  match v with YStr _ => true | _ => false end.

(** [d.get(key)] on the items of a dict: [None] stands for the missing key. *)
Fixpoint dict_get (key : string) (items : list (string * yaml)) : option yaml :=
  match items with
  | [] => None
  | (k, v) :: tl => if (k =? key)%string then Some v else dict_get key tl
  end.

(** [key in d] *)
Definition dict_mem (key : string) (items : list (string * yaml)) : bool :=
  match dict_get key items with Some _ => true | None => false end.

(** [list(d.keys())] *)
Definition dict_keys (items : list (string * yaml)) : list string :=
  map fst items.

(** ** Exceptions *)

Inductive message : Type :=
(* "YAML configuration must be a dictionary at every level" *)
| MustBeDictAtEveryLevel
(* "Expected exactly one key per level, but found {len(keys)} keys: {keys}" *)
| ExpectedOneKey (found : nat) (keys : list string)
(* "Expected a dictionary under key '{current_key}', but got {type(...).__name__}" *)
| ExpectedDictUnder (current_key : string) (got : string)
(* "'ros__parameters' under node '{current_key}' must be a dictionary." *)
| ParametersMustBeDict (current_key : string)
(* "Expected 'ros_remappings' to be a dictionary." *)
| RemappingsMustBeDict
(* "Expected a list for '{section_name}' remappings." *)
| ExpectedListFor (section_name : string)
(* "Each remapping in '{section_name}' must be a string, got {type(item).__name__}" *)
| RemappingMustBeStr (section_name : string) (got : string)
(* "Invalid format in '{section_name}': '{item}' (expected 'from:to')" *)
| InvalidFormatIn (section_name : string) (item : string)
(* "Empty 'from' or 'to' field in '{section_name}' remapping: '{item}'" *)
| EmptyFieldIn (section_name : string) (item : string)
(* "Each action remapping must be a string, got {type(item).__name__}" *)
| ActionMustBeStr (got : string)
(* "Invalid format in action remapping: '{item}' (expected 'from:to')" *)
| InvalidActionFormat (item : string)
(* "Empty 'from' or 'to' in action remapping: '{item}'" *)
| EmptyActionField (item : string).

Inductive exception : Type :=
| ValueError (msg : message)
(* raised by get_package_share_directory for an unknown package *)
| PackageNotFoundError (package_name : string).

Inductive res (A : Type) : Type :=
| Ok (a : A)
| Err (e : exception).
Arguments Ok {A} a.
Arguments Err {A} e.

Definition bind {A B : Type} (r : res A) (f : A -> res B) : res B :=
  match r with
  | Ok a => f a
  | Err e => Err e
  end.

Notation "x <- r ;; k" := (bind r (fun x => k))
  (at level 61, r at next level, right associativity).

(** ** The namespace resolver *)

(** [get_node_config_and_ns(yaml_config, namespace)].  With one key in
    [yaml_config], [yaml_config[keys[0]]] is the value of its only item. *)
Fixpoint get_node_config_and_ns (yaml_config : yaml) (namespace : string)
  : res (yaml * string) :=
  match yaml_config with
  | YDict items =>
      match items with
      | [(current_key, inner_yaml_config)] =>
          match inner_yaml_config with
          | YDict inner_items =>
              match dict_get "ros__parameters" inner_items with
              | Some parameters =>
                  if is_dict parameters
                  then Ok (yaml_config, namespace)
                  else Err (ValueError (ParametersMustBeDict current_key))
              | None =>
                  let next_namespace :=
                    if (namespace =? "")%string then current_key
                    else namespace ++ "/" ++ current_key in
                  get_node_config_and_ns inner_yaml_config next_namespace
              end
          | _ =>
              Err (ValueError
                     (ExpectedDictUnder current_key (type_name inner_yaml_config)))
          end
      | _ =>
          Err (ValueError (ExpectedOneKey (length (dict_keys items)) (dict_keys items)))
      end
  | _ => Err (ValueError MustBeDictAtEveryLevel)
  end.

(** ** Strings *)

(** [s.startswith(c)] and [s.endswith(c)] for a one-character [c] *)
Definition startswith (s : string) (c : ascii) : bool :=
  match s with
  | String a _ => (a =? c)%char
  | EmptyString => false
  end.

Fixpoint endswith (s : string) (c : ascii) : bool :=
  match s with
  | EmptyString => false
  | String a EmptyString => (a =? c)%char
  | String _ s' => endswith s' c
  end.

(** [os.path.join(a, b)] of [posixpath], for two components *)
Definition path_join (a b : string) : string :=
  if startswith b "/" then b
  else if (a =? "")%string || endswith a "/" then a ++ b
  else a ++ "/" ++ b.

(** [c.isspace()] for the code points below 256: the characters removed by
    [str.strip()] *)
Definition isspace (c : ascii) : bool :=
  let n := nat_of_ascii c in
  (((9 <=? n) && (n <=? 13)) || ((28 <=? n) && (n <=? 32))
   || (n =? 133) || (n =? 160))%nat.

Fixpoint lstrip (s : string) : string :=
  match s with
  | String c s' => if isspace c then lstrip s' else s
  | EmptyString => EmptyString
  end.

Fixpoint rstrip (s : string) : string :=
  match s with
  | String c s' =>
      match rstrip s' with
      | EmptyString => if isspace c then EmptyString else String c EmptyString
      | kept => String c kept
      end
  | EmptyString => EmptyString
  end.

(** [s.strip()] *)
Definition strip (s : string) : string := rstrip (lstrip s).

(** [s.split(sep)] for a one-character separator: one more part than there
    are separators in [s] *)
Fixpoint split (sep : ascii) (s : string) : list string :=
  match s with
  | EmptyString => [EmptyString]
  | String c s' =>
      if (c =? sep)%char then EmptyString :: split sep s'
      else match split sep s' with
           | part :: parts => String c part :: parts
           | [] => [String c EmptyString]
           end
  end.

(** ** Regular expressions

    The fragment of [re] that the two patterns of [expand_filenames] use,
    matched the way [re] does it: by backtracking, a quantifier taking as
    much as it can first.  Groups do not nest in the patterns, so a group is
    numbered when it closes. *)

Inductive char_class : Type :=
| Char (c : ascii)       (* the character itself *)
| NotChar (c : ascii)    (* [^c] *)
| AnyChar.               (* .  : anything but a newline *)

Inductive regex : Type :=
| Lit (text : string)
| One (cc : char_class)
| Many1 (cc : char_class)      (* cc+ *)
| Seq (r1 r2 : regex)
| Group (r : regex).

Definition newline : ascii := ascii_of_nat 10.

Definition accepts (cc : char_class) (a : ascii) : bool :=
  match cc with
  | Char c => (a =? c)%char
  | NotChar c => negb (a =? c)%char
  | AnyChar => negb (a =? newline)%char
  end.

(** What is left of [s] after the literal [text], when [s] starts with it *)
Fixpoint skip_literal (text s : string) : option string :=
  match text with
  | EmptyString => Some s
  | String c text' =>
      match s with
      | String a s' => if (a =? c)%char then skip_literal text' s' else None
      | EmptyString => None
      end
  end.

(** The text between the start of [s] and the start of its suffix [s'] *)
Definition consumed (s s' : string) : string :=
  substring 0 (String.length s - String.length s') s.

Definition groups : Type := list string.
Definition continuation : Type := string -> groups -> option groups.

(** [cc*] then [k]: the longest run first, one character less on failure *)
Fixpoint many (cc : char_class) (s : string) (gs : groups) (k : continuation)
  : option groups :=
  match s with
  | String a s' =>
      if accepts cc a then
        match many cc s' gs k with
        | Some m => Some m
        | None => k s gs
        end
      else k s gs
  | EmptyString => k s gs
  end.

(** [rmatch r s gs k]: match [r] at the start of [s], then [k] on the rest *)
Fixpoint rmatch (r : regex) (s : string) (gs : groups) (k : continuation)
  : option groups :=
  match r with
  | Lit text =>
      match skip_literal text s with
      | Some s' => k s' gs
      | None => None
      end
  | One cc =>
      match s with
      | String a s' => if accepts cc a then k s' gs else None
      | EmptyString => None
      end
  | Many1 cc =>
      match s with
      | String a s' => if accepts cc a then many cc s' gs k else None
      | EmptyString => None
      end
  | Seq r1 r2 => rmatch r1 s gs (fun s1 g1 => rmatch r2 s1 g1 k)
  | Group r1 => rmatch r1 s gs (fun s1 g1 => k s1 (g1 ++ [consumed s s1])%list)
  end.

(** [re.match(r, s)]: the groups of the match of [r] at the start of [s] *)
Definition re_match (r : regex) (s : string) : option groups :=
  rmatch r s [] (fun _ gs => Some gs).

(** [re.search(r, s)]: the groups of the leftmost match of [r] in [s] *)
Fixpoint re_search (r : regex) (s : string) : option groups :=
  match re_match r s with
  | Some m => Some m
  | None =>
      match s with
      | String _ s' => re_search r s'
      | EmptyString => None
      end
  end.

(** [m.group(n)] for [n >= 1] *)
Definition group (m : groups) (n : nat) : string := nth (n - 1) m EmptyString.

(** ** The path expander *)

(** r"package://([^/]+)/(.+)" *)
Definition pattern1 : regex :=
  Seq (Lit "package://")
      (Seq (Group (Many1 (NotChar "/")))
           (Seq (One (Char "/")) (Group (Many1 AnyChar)))).

(** r"file://(/.+)" *)
Definition pattern2 : regex :=
  Seq (Lit "file://") (Group (Seq (One (Char "/")) (Many1 AnyChar))).

Section PathExpander.

(** The package index: the share directory of a package, or the exception
    it raises for a package it does not know *)
Variable get_package_share_directory : string -> res string.

(** The body of the loop for a [str] value: the value to store *)
Definition expand_value (value : string) : res string :=
  match re_search pattern1 value with
  | Some match1 =>
      package <- get_package_share_directory (group match1 1) ;;
      let relative_path := group match1 2 in
      Ok (path_join package relative_path)
  | None =>
      match re_search pattern2 value with
      | Some match2 => Ok (group match2 1)
      | None => Ok value
      end
  end.

(** The loop of [expand_filenames] over the items of a dict, [recurse]
    being the function itself.  The result is the dict after the loop and
    the exception that ended it, if one did: what was stored before the
    exception stays stored. *)
Fixpoint expand_items (recurse : yaml -> yaml * option exception)
    (items : list (string * yaml)) : list (string * yaml) * option exception :=
  match items with
  | [] => ([], None)
  | (param_id, value) :: rest =>
      match value with
      | YDict _ =>
          let (value', raised) := recurse value in
          match raised with
          | Some e => ((param_id, value') :: rest, Some e)
          | None =>
              let (rest', raised') := expand_items recurse rest in
              ((param_id, value') :: rest', raised')
          end
      | YStr s =>
          match expand_value s with
          | Ok s' =>
              let (rest', raised') := expand_items recurse rest in
              ((param_id, YStr s') :: rest', raised')
          | Err e => (items, Some e)
          end
      | _ =>
          let (rest', raised') := expand_items recurse rest in
          ((param_id, value) :: rest', raised')
      end
  end.

(** [expand_filenames(yaml_parameters)]: the object after the call and the
    exception raised, if any *)
Fixpoint expand_filenames (yaml_parameters : yaml) : yaml * option exception :=
  match yaml_parameters with
  | YDict items =>
      let (items', raised) := expand_items expand_filenames items in
      (YDict items', raised)
  | _ => (yaml_parameters, None)
  end.

End PathExpander.

(** ** The remapping expander *)

Definition remapping : Type := (string * string)%type.

(** The loop of [parse_section] over the items of a section, [result]
    being the list built so far *)
Fixpoint parse_items (section_name : string) (section : list yaml)
    (result : list remapping) : res (list remapping) :=
  match section with
  | [] => Ok result
  | item :: section' =>
      match item with
      | YStr s =>
          let parts := split ":" s in
          if negb (length parts =? 2)%nat then
            Err (ValueError (InvalidFormatIn section_name s))
          else
            let from_topic := strip (nth 0 parts "") in
            let to_topic := strip (nth 1 parts "") in
            if (from_topic =? "")%string || (to_topic =? "")%string then
              Err (ValueError (EmptyFieldIn section_name s))
            else parse_items section_name section' (result ++ [(from_topic, to_topic)])%list
      | _ => Err (ValueError (RemappingMustBeStr section_name (type_name item)))
      end
  end.

(** [parse_section(section_name)], the function local to [get_remappings],
    with the [ros_remappings] dict it closes over *)
Definition parse_section (ros_remappings : list (string * yaml))
    (section_name : string) : res (list remapping) :=
  match dict_get section_name ros_remappings with
  | None | Some YNone => Ok []
  | Some (YList section) => parse_items section_name section []
  | Some _ => Err (ValueError (ExpectedListFor section_name))
  end.

Definition suffixes : list string :=
  [ "/_action/feedback";
    "/_action/status";
    "/_action/cancel_goal";
    "/_action/get_result";
    "/_action/send_goal" ].

(** The loop of [get_remappings_for_actions] over [actions_yaml] *)
Fixpoint expand_actions (actions_yaml : list yaml)
    (remapping_list : list remapping) : res (list remapping) :=
  match actions_yaml with
  | [] => Ok remapping_list
  | item :: actions_yaml' =>
      match item with
      | YStr s =>
          let parts := split ":" s in
          if negb (length parts =? 2)%nat then
            Err (ValueError (InvalidActionFormat s))
          else
            let from_prefix := strip (nth 0 parts "") in
            let to_prefix := strip (nth 1 parts "") in
            if (from_prefix =? "")%string || (to_prefix =? "")%string then
              Err (ValueError (EmptyActionField s))
            else
              expand_actions actions_yaml'
                (fold_left
                   (fun l suffix =>
                      (l ++ [((from_prefix ++ suffix)%string,
                              (to_prefix ++ suffix)%string)])%list)
                   suffixes remapping_list)
      | _ => Err (ValueError (ActionMustBeStr (type_name item)))
      end
  end.

(** [get_remappings_for_actions(actions_yaml)] *)
Definition get_remappings_for_actions (actions_yaml : yaml)
  : res (list remapping) :=
  match actions_yaml with
  | YNone => Ok []
  | YList l => expand_actions l []
  | _ => Err (ValueError (ExpectedListFor "actions"))
  end.

(** [get_remappings(ros_remappings)] *)
Definition get_remappings (ros_remappings : yaml) : res (list remapping) :=
  match ros_remappings with
  | YNone => Ok []
  | YDict d =>
      topics <- parse_section d "topics" ;;
      services <- parse_section d "services" ;;
      let remapping_list := (topics ++ services)%list in
      match dict_get "actions" d with
      | Some actions =>
          expanded <- get_remappings_for_actions actions ;;
          Ok (remapping_list ++ expanded)%list
      | None => Ok remapping_list
      end
  | _ => Err (ValueError RemappingsMustBeDict)
  end.

(** ** Loading the configuration and configuring the node

    The collaborators of this part are parameters: [read] tells what a path
    is and what opening and parsing the file gives, [performed] is what
    [Path(lc_config_file.perform(context))] gives.  A path is carried by its
    text, an exception of the collaborators by its description.  What
    [logger.error] writes is left out. *)

(** [bool(v)]: the truth value of a loaded value *)
Definition truthy (v : yaml) : bool :=
  match v with
  | YNone => false
  | YBool b => b
  | YInt n => negb (n =? 0)%Z
  | YFloat mantissa _ => negb (mantissa =? 0)%Z
  | YStr s => negb (s =? "")%string
  | YList l => match l with [] => false | _ :: _ => true end
  | YDict items => match items with [] => false | _ :: _ => true end
  end.

(** [d.get(key)] as Python gives it: [None] for a missing key *)
Definition dict_get_or_none (key : string) (items : list (string * yaml)) : yaml :=
  match dict_get key items with
  | Some v => v
  | None => YNone
  end.

(** [d.get(key, default)] *)
Definition dict_get_default (key : string) (default : yaml)
    (items : list (string * yaml)) : yaml :=
  match dict_get key items with
  | Some v => v
  | None => default
  end.

Inductive file_format : Type := JSON | YAML.

Inductive load_message : Type :=
(* "No path to {JSON,YAML} configuration file was provided." *)
| NoPathProvided (format : file_format)
(* "The {JSON,YAML} configuration file '{file}' does not exist." *)
| DoesNotExist (format : file_format) (file : string)
(* "The path '{file}' is not a file." *)
| IsNotAFile (file : string)
(* "The {JSON,YAML} configuration file '{file}' is empty or contains no usable content." *)
| NoUsableContent (format : file_format) (file : string)
(* "The YAML configuration file '{yaml_file}' must contain a dictionary at the top level." *)
| TopLevelMustBeDict (file : string).

Inductive configure_message : Type :=
(* "The field 'ros_execution' is required and must be a dictionary in the YAML configuration" *)
| ExecutionMustBeDict
(* "The field '{key}' is required in the 'ros_execution' block of the YAML configuration" *)
| FieldRequired (key : string).

Inductive failure : Type :=
(* an exception of the resolver, of the remapping expander or of the package index *)
| Raised (e : exception)
(* ValueError of a loader *)
| LoadError (msg : load_message)
(* ValueError of configure *)
| ConfigureError (msg : configure_message)
(* an exception of the launch substitution, of open or of the parser *)
| Foreign (description : string)
(* exceptions of Python itself *)
| StopIteration
| KeyError (key : string)
| TypeError
| AttributeError.

Inductive outcome (A : Type) : Type :=
| Returns (a : A)
| Fails (f : failure).
Arguments Returns {A} a.
Arguments Fails {A} f.

(** What a path is: nothing, something that is not a file, or a file with
    what opening and parsing it gives (the exception raised, or the data) *)
Inductive path_entry : Type :=
| Missing
| NotRegular
| Regular (content : string + yaml).

(** [load_yaml_config(yaml_file)], [read] standing for the file system and
    [yaml.safe_load] *)
Definition load_yaml_config (read : string -> path_entry)
    (yaml_file : option string) : outcome yaml :=
  match yaml_file with
  | None => Fails (LoadError (NoPathProvided YAML))
  | Some file =>
      match read file with
      | Missing => Fails (LoadError (DoesNotExist YAML file))
      | NotRegular => Fails (LoadError (IsNotAFile file))
      | Regular (inl description) => Fails (Foreign description)
      | Regular (inr data) =>
          match data with
          | YNone => Fails (LoadError (NoUsableContent YAML file))
          | YDict _ => Returns data
          | _ => Fails (LoadError (TopLevelMustBeDict file))
          end
      end
  end.

(** [load_json_config(json_file)], [read] standing for the file system and
    [json.load] *)
Definition load_json_config (read : string -> path_entry)
    (json_file : option string) : outcome yaml :=
  match json_file with
  | None => Fails (LoadError (NoPathProvided JSON))
  | Some file =>
      match read file with
      | Missing => Fails (LoadError (DoesNotExist JSON file))
      | NotRegular => Fails (LoadError (IsNotAFile file))
      | Regular (inl description) => Fails (Foreign description)
      | Regular (inr data) =>
          match data with
          | YNone => Fails (LoadError (NoUsableContent JSON file))
          | _ => Returns data
          end
      end
  end.

(** [load_ros_node_config(yaml_file)] *)
Definition load_ros_node_config (read : string -> path_entry)
    (yaml_file : option string) : outcome (yaml * string) :=
  match load_yaml_config read yaml_file with
  | Returns yaml_config =>
      match get_node_config_and_ns yaml_config "" with
      | Ok found => Returns found
      | Err e => Fails (Raised e)
      end
  | Fails f => Fails f
  end.

(** The arguments that [configure] gives to [Node] *)
Module Node.
Record t : Type := make {
  package : yaml;
  executable : yaml;
  namespace : string;
  name : string;
  parameters : list yaml;
  remappings : list remapping;
  output : yaml;
  emulate_tty : yaml;
  respawn : yaml;
  respawn_delay : yaml
}.
End Node.

Inductive launch_entity : Type :=
(* Node(...) *)
| NodeAction (node : Node.t)
(* RegisterEventHandler(OnProcessExit(target_action=node,
                                       on_exit=[EmitEvent(event=Shutdown())])) *)
| ShutdownOnProcessExit (target_action : Node.t).

(** What a value read from the parameters before the call of
    [expand_filenames] is once the call has returned: a dict is the object
    that the call has changed in place, any other value is as it was read (a
    string that the call replaces in the parameters is not the string that
    was read) *)
Definition after_expansion (get_package_share_directory : string -> res string)
    (v : yaml) : yaml :=
  match v with
  | YDict _ => fst (expand_filenames get_package_share_directory v)
  | _ => v
  end.

(** [configure(context)].  [Node(...)] is the record of its arguments.
    [node_config] is the dict that the resolver returned and
    [next(iter(node_config))] its first key; the branches for an empty dict,
    a missing key and a value without the method or the index asked of it
    give what Python raises there (the resolver returns no [node_config]
    that is not a dict, and the branch for it is never taken).
    [ros_execution] is the dict stored in [ros_parameters]: the expansion
    changes it in place, so what is read from it after the call to
    [expand_filenames] is read from its expansion; [output], [emulate_tty],
    [respawn] and [respawn_delay] are read before the call and given to
    [Node] after it, as [after_expansion] tells. *)
Definition configure (read : string -> path_entry)
    (get_package_share_directory : string -> res string)
    (performed : outcome string) : outcome (list launch_entity) :=
  match performed with
  | Fails f => Fails f
  | Returns config_file =>
  match load_ros_node_config read (Some config_file) with
  | Fails f => Fails f
  | Returns (node_config, namespace) =>
  match node_config with
  | YDict [] => Fails StopIteration
  | YDict ((node_name, node) :: _) =>
  match node with
  | YDict node_items =>
  match dict_get "ros__parameters" node_items with
  | None => Fails (KeyError "ros__parameters")
  | Some ros_parameters =>
  match ros_parameters with
  | YDict parameters_items =>
  match dict_get_or_none "ros_execution" parameters_items with
  | YDict ros_execution =>
      if negb (truthy (dict_get_or_none "node_package" ros_execution)) then
        Fails (ConfigureError (FieldRequired "node_package"))
      else if negb (truthy (dict_get_or_none "node_executable" ros_execution)) then
        Fails (ConfigureError (FieldRequired "node_executable"))
      else
        let output := dict_get_default "output" (YStr "screen") ros_execution in
        let emulate_tty := dict_get_default "emulate_tty" (YBool false) ros_execution in
        let respawn := dict_get_default "respawn" (YBool false) ros_execution in
        let respawn_delay := dict_get_default "respawn_delay" (YInt 0) ros_execution in
        match
          match dict_get "ros_remappings" parameters_items with
          | None | Some YNone => Ok []
          | Some ros_remappings => get_remappings ros_remappings
          end
        with
        | Err e => Fails (Raised e)
        | Ok remapping_list =>
            let (ros_parameters', raised) :=
              expand_filenames get_package_share_directory ros_parameters in
            let ros_execution' :=
              fst (expand_items get_package_share_directory
                     (expand_filenames get_package_share_directory) ros_execution) in
            match raised with
            | Some e => Fails (Raised e)
            | None =>
                match dict_get "node_package" ros_execution' with
                | None => Fails (KeyError "node_package")
                | Some package =>
                match dict_get "node_executable" ros_execution' with
                | None => Fails (KeyError "node_executable")
                | Some executable =>
                    let node :=
                      Node.make package executable namespace node_name
                        [ros_parameters'] remapping_list
                        (after_expansion get_package_share_directory output)
                        (after_expansion get_package_share_directory emulate_tty)
                        (after_expansion get_package_share_directory respawn)
                        (after_expansion get_package_share_directory respawn_delay) in
                    if truthy (dict_get_default "on_node_exit_shutdown_system"
                                 (YBool false) ros_execution')
                    then Returns [NodeAction node; ShutdownOnProcessExit node]
                    else Returns [NodeAction node]
                end
                end
            end
        end
  | _ => Fails (ConfigureError ExecutionMustBeDict)
  end
  | _ => Fails AttributeError
  end
  end
  | _ => Fails TypeError
  end
  | _ => Fails TypeError
  end
  end
  end.

(** A package index that knows the package [foo] only *)
Definition lookup_foo (package_name : string) : res string :=
  if (package_name =? "foo")%string then Ok "/opt/foo"
  else Err (PackageNotFoundError package_name).

(** ** Vocabulary of the properties *)

(** [sep.join(parts)] *)
Fixpoint join (sep : string) (parts : list string) : string :=
  match parts with
  | [] => ""
  | [part] => part
  | part :: parts' => part ++ sep ++ join sep parts'
  end.

Definition marker : string := "ros__parameters".

(** [nest [k1; ...; kn] level] is the document [{k1: {... {kn: level}}}]:
    one key at each of the [n] levels above [level]. *)
Fixpoint nest (keys : list string) (level : yaml) : yaml :=
  match keys with
  | [] => level
  | key :: keys' => YDict [(key, nest keys' level)]
  end.

Definition has_marker (v : yaml) : bool :=
  match v with
  | YDict items => dict_mem marker items
  | _ => false
  end.

(** None of the levels above [level] has the marker in its value: [level] is
    the first place where the resolver can find it. *)
Fixpoint marker_free_above (keys : list string) (level : yaml) : Prop :=
  match keys with
  | [] => True
  | _ :: keys' => has_marker (nest keys' level) = false /\ marker_free_above keys' level
  end.

(** The namespace that the resolver accumulates over [keys] *)
Definition accumulate (namespace : string) (keys : list string) : string :=
  fold_left
    (fun ns key => if (ns =? "")%string then key else ns ++ "/" ++ key)
    keys namespace.

Fixpoint drop_empty (keys : list string) : list string :=
  match keys with
  | "" :: keys' => drop_empty keys'
  | _ => keys
  end.

(** Every key with a separator in front *)
Definition separated (keys : list string) : string :=
  fold_right (fun key tail => "/" ++ key ++ tail) "" keys.

(** [c] does not occur in [s] *)
Fixpoint free_of (c : ascii) (s : string) : Prop :=
  match s with
  | EmptyString => True
  | String a s' => a <> c /\ free_of c s'
  end.

(** How many times [c] occurs in [s] *)
Fixpoint count_char (c : ascii) (s : string) : nat :=
  match s with
  | EmptyString => 0
  | String a s' => (if (a =? c)%char then 1 else 0) + count_char c s'
  end.

(** The two sides of an entry "from:to" with one colon, neither of them
    empty once trimmed *)
Definition valid_sides (a b : string) : Prop :=
  free_of ":" a /\ free_of ":" b /\ strip a <> "" /\ strip b <> "".

(** A valid entry and the remapping it stands for *)
Inductive parses_to : yaml -> remapping -> Prop :=
| parses_to_sides (a b : string) :
    valid_sides a b -> parses_to (YStr (a ++ ":" ++ b)) (strip a, strip b).

(** The five remappings of an action, in the order of the specification *)
Definition fan_out (from_prefix to_prefix : string) : list remapping :=
  [ (from_prefix ++ "/_action/feedback", to_prefix ++ "/_action/feedback");
    (from_prefix ++ "/_action/status", to_prefix ++ "/_action/status");
    (from_prefix ++ "/_action/cancel_goal", to_prefix ++ "/_action/cancel_goal");
    (from_prefix ++ "/_action/get_result", to_prefix ++ "/_action/get_result");
    (from_prefix ++ "/_action/send_goal", to_prefix ++ "/_action/send_goal") ].

(** The longest prefix of [s] made of characters of the class [cc], and
    what follows it *)
Fixpoint span (cc : char_class) (s : string) : string * string :=
  match s with
  | String a s' =>
      if accepts cc a then let (run, rest) := span cc s' in (String a run, rest)
      else (EmptyString, s)
  | EmptyString => (EmptyString, EmptyString)
  end.

(** Every character of [s] is of the class [cc] *)
Fixpoint all_in (cc : char_class) (s : string) : Prop :=
  match s with
  | EmptyString => True
  | String a s' => accepts cc a = true /\ all_in cc s'
  end.

(** [s] is empty or starts with a character that is not of the class [cc]:
    a run of [cc] cannot go on into [s] *)
Definition stops (cc : char_class) (s : string) : Prop :=
  match s with
  | EmptyString => True
  | String a _ => accepts cc a = false
  end.

(** What [pattern1] matches at the start of [s], read off the pattern: the
    scheme, the longest run without "/" (not empty), a "/", the longest run
    without a newline (not empty) *)
Definition match_package (s : string) : option groups :=
  match skip_literal "package://" s with
  | Some t =>
      match span (NotChar "/") t with
      | (String a pkg, String c t') =>
          if (c =? "/")%char then
            match fst (span AnyChar t') with
            | EmptyString => None
            | rest => Some [String a pkg; rest]
            end
          else None
      | _ => None
      end
  | None => None
  end.

(** What [pattern2] matches at the start of [s]: the scheme, a "/" and the
    longest run without a newline (not empty) *)
Definition match_file (s : string) : option groups :=
  match skip_literal "file://" s with
  | Some (String c t') =>
      if (c =? "/")%char then
        match fst (span AnyChar t') with
        | EmptyString => None
        | rest => Some [String c rest]
        end
      else None
  | _ => None
  end.

(** [after] is empty or starts with a line break: a run of "." that ends
    before [after] is as long as it can be *)
Definition ends_line (after : string) : Prop :=
  match after with
  | EmptyString => True
  | String a _ => a = newline
  end.

(** [value] has, after [before], a substring that [pattern1] matches:
    [package://], a package name [pkg] and the text [rest] in one line *)
Definition package_uri_at (value before pkg rest after : string) : Prop :=
  value = before ++ "package://" ++ pkg ++ "/" ++ rest ++ after
  /\ pkg <> "" /\ free_of "/" pkg
  /\ rest <> "" /\ free_of newline rest.

(** [value] has, after [before], a substring that [pattern2] matches:
    [file://] and the path ["/" ++ rest] in one line *)
Definition file_uri_at (value before rest after : string) : Prop :=
  value = before ++ "file://" ++ "/" ++ rest ++ after
  /\ rest <> "" /\ free_of newline rest.

(** The match that [re.search] finds: the leftmost one, as long as it can be *)
Definition first_package_uri (value before pkg rest after : string) : Prop :=
  package_uri_at value before pkg rest after
  /\ ends_line after
  /\ forall before' pkg' rest' after',
       package_uri_at value before' pkg' rest' after' ->
       String.length before <= String.length before'.


Definition no_package_uri (value : string) : Prop :=
  forall before pkg rest after, ~ package_uri_at value before pkg rest after.

Definition no_file_uri (value : string) : Prop :=
  forall before rest after, ~ file_uri_at value before rest after.

(** The value found in [v] by going down the mappings along the keys of
    [path] *)
Fixpoint value_at (v : yaml) (path : list string) : option yaml :=
  match path with
  | [] => Some v
  | key :: path' =>
      match v with
      | YDict items =>
          match dict_get key items with
          | Some v' => value_at v' path'
          | None => None
          end
      | _ => None
      end
  end.

(** [P] holds of every string that is a value of the mapping [v] or of a
    mapping nested in it *)
Fixpoint every_string (P : string -> Prop) (v : yaml) : Prop :=
  match v with
  | YDict items =>
      (fix every (items : list (string * yaml)) : Prop :=
         match items with
         | [] => True
         | (_, x) :: items' =>
             match x with
             | YStr s => P s
             | YDict _ => every_string P x
             | _ => True
             end /\ every items'
         end) items
  | _ => True
  end.

(** Neither pattern is found in [value] *)
Definition matches_neither (value : string) : Prop :=
  re_search pattern1 value = None /\ re_search pattern2 value = None.

(** What a successful call stores in the place of the value [v] of a
    mapping *)
Definition stored_for (lookup : string -> res string) (v v' : yaml) : Prop :=
  match v with
  | YStr s => exists s', expand_value lookup s = Ok s' /\ v' = YStr s'
  | YDict _ => expand_filenames lookup v = (v', None)
  | _ => v' = v
  end.

(** [r] matches at none of the first [n] places of [s] *)
Fixpoint no_match_within (r : regex) (s : string) (n : nat) {struct n} : bool :=
  match n with
  | 0 => true
  | S n' =>
      match re_match r s with
      | Some _ => false
      | None =>
          match s with
          | String _ s' => no_match_within r s' n'
          | EmptyString => true
          end
      end
  end.

(** [s] is made of the characters that [strip] removes *)
Fixpoint all_space (s : string) : Prop :=
  match s with
  | EmptyString => True
  | String a s' => isspace a = true /\ all_space s'
  end.

(** Two items with the same key and values of the same type *)
Definition same_kind (item item' : string * yaml) : Prop :=
  fst item = fst item' /\ type_name (snd item) = type_name (snd item').

(** [part] occurs in [s] *)
Definition occurs_in (part s : string) : Prop :=
  exists before after, s = before ++ part ++ after.

(** A check for [occurs_in] *)
Fixpoint has_substring (part s : string) : bool :=
  match skip_literal part s with
  | Some _ => true
  | None =>
      match s with
      | String _ s' => has_substring part s'
      | EmptyString => false
      end
  end.

(** A remapping as the downstream consumer can take it: both names are
    there, without a colon, and trimmed *)
Definition clean (pair : remapping) : Prop :=
  fst pair <> "" /\ snd pair <> ""
  /\ free_of ":" (fst pair) /\ free_of ":" (snd pair)
  /\ strip (fst pair) = fst pair /\ strip (snd pair) = snd pair.

(** What a section of [get_remappings] contributes: nothing when it is
    missing or null, the remappings of its entries when it is a list of
    valid entries *)
Definition section_gives (ros_remappings : list (string * yaml))
    (section_name : string) (pairs : list remapping) : Prop :=
  match dict_get section_name ros_remappings with
  | None | Some YNone => pairs = []
  | Some (YList section) => Forall2 parses_to section pairs
  | Some _ => False
  end.

(** What the actions section contributes: five remappings an entry *)
Definition actions_give (ros_remappings : list (string * yaml))
    (pairs : list remapping) : Prop :=
  match dict_get "actions" ros_remappings with
  | None | Some YNone => pairs = []
  | Some (YList actions_yaml) =>
      exists entries : list (string * string),
        actions_yaml = map (fun e => YStr (fst e ++ ":" ++ snd e)) entries
        /\ Forall (fun e => valid_sides (fst e) (snd e)) entries
        /\ pairs = flat_map (fun e => fan_out (strip (fst e)) (strip (snd e))) entries
  | Some _ => False
  end.

(** A file system with one file, [/etc/arm.yaml], that holds the combined
    scenario of the specification, the package of the node given as a URI,
    and a shutdown request *)
Definition arm_parameters : yaml :=
  YDict [("ros_execution",
          YDict [("node_package", YStr "arm_pkg");
                 ("node_executable", YStr "file:///opt/bin/arm_node_exe");
                 ("output", YStr "file:///var/log/arm");
                 ("on_node_exit_shutdown_system", YBool true)]);
         ("ros_remappings", YDict [("topics", YList [YStr "js:joint_states"])]);
         ("model", YStr "package://foo/urdf/arm.urdf")].

Definition arm_document : yaml :=
  YDict [("robot", YDict [("arm", YDict [("arm_node",
    YDict [("ros__parameters", arm_parameters)])])])].

Definition read_arm (file : string) : path_entry :=
  if (file =? "/etc/arm.yaml")%string then Regular (inr arm_document)
  else if (file =? "/etc")%string then NotRegular
  else Missing.

(** A failure that the code provides for: not one of the exceptions that
    Python raises for a wrong lookup in a value *)
Definition provided_for (f : failure) : Prop :=
  match f with
  | StopIteration | KeyError _ | TypeError | AttributeError => False
  | _ => True
  end.

(** The node that [configure] makes of [/etc/arm.yaml] *)
Definition arm_node : Node.t :=
  Node.make (YStr "arm_pkg") (YStr "/opt/bin/arm_node_exe") "robot/arm" "arm_node"
    [YDict [("ros_execution",
             YDict [("node_package", YStr "arm_pkg");
                    ("node_executable", YStr "/opt/bin/arm_node_exe");
                    ("output", YStr "/var/log/arm");
                    ("on_node_exit_shutdown_system", YBool true)]);
            ("ros_remappings", YDict [("topics", YList [YStr "js:joint_states"])]);
            ("model", YStr "/opt/foo/urdf/arm.urdf")]]
    [("js", "joint_states")]
    (YStr "file:///var/log/arm") (YBool false) (YBool false) (YInt 0).

Definition configure_actions_of_arm : list launch_entity :=
  [NodeAction arm_node; ShutdownOnProcessExit arm_node].

(** A file system with one file, whose node has an empty [node_package],
    remappings that are not valid and a package that [lookup_foo] does not
    know *)
Definition read_bare (file : string) : path_entry :=
  if (file =? "/etc/bare.yaml")%string then
    Regular (inr (YDict [("n", YDict [("ros__parameters",
      YDict [("ros_execution", YDict [("node_package", YStr "")]);
             ("ros_remappings", YDict [("topics", YInt 5)]);
             ("model", YStr "package://bar/x")])])]))
  else Missing.

(** How an execution option reaches [Node]: [raw] is the value read from
    [ros_execution] before the expansion (or the default), [given] what
    [Node] is given.  A value that is not a mapping is given as it was
    read; a mapping is given expanded, as the parameters given to the same
    [Node] hold it under [ros_execution]. *)
Definition option_given (lookup : string -> res string) (parameters : list yaml)
    (key : string) (raw given : yaml) : Prop :=
  (is_dict raw = false -> given = raw)
  /\ (is_dict raw = true ->
      expand_filenames lookup raw = (given, None)
      /\ exists ros_parameters,
           parameters = [ros_parameters]
           /\ value_at ros_parameters ["ros_execution"; key] = Some given).

(** A file system with one file, whose node has a mapping for [output] and
    a string for [respawn_delay], both with a URI in them *)
Definition read_logged (file : string) : path_entry :=
  if (file =? "/etc/logged.yaml")%string then
    Regular (inr (YDict [("cam", YDict [("ros__parameters",
      YDict [("ros_execution",
              YDict [("node_package", YStr "cam_pkg");
                     ("node_executable", YStr "cam_exe");
                     ("output", YDict [("stdout", YStr "file:///var/log/x")]);
                     ("respawn_delay", YStr "file:///etc/delay")])])])]))
  else Missing.

(** The node that [configure] makes of [/etc/logged.yaml] *)
Definition logged_node : Node.t :=
  Node.make (YStr "cam_pkg") (YStr "cam_exe") "" "cam"
    [YDict [("ros_execution",
             YDict [("node_package", YStr "cam_pkg");
                    ("node_executable", YStr "cam_exe");
                    ("output", YDict [("stdout", YStr "/var/log/x")]);
                    ("respawn_delay", YStr "/etc/delay")])]]
    []
    (YDict [("stdout", YStr "/var/log/x")]) (YBool false) (YBool false)
    (YStr "file:///etc/delay").

(** * Properties *)

(** ** Strings *)

Lemma append_nil_r (s : string) : s ++ "" = s.
Proof. induction s as [|a s IH]; simpl; [reflexivity | now rewrite IH]. Qed.

Lemma append_assoc (s t u : string) : (s ++ t) ++ u = s ++ t ++ u.
Proof. induction s as [|a s IH]; simpl; [reflexivity | now rewrite IH]. Qed.

Lemma length_append (s t : string) :
  String.length (s ++ t) = String.length s + String.length t.
Proof. induction s as [|a s IH]; simpl; [reflexivity | now rewrite IH]. Qed.

(** [strip] removes a run of whitespace at each end, and all of it. *)
Lemma lstrip_decompose (s : string) :
  exists l, s = l ++ lstrip s /\ all_space l.
Proof.
  induction s as [|a s (l & Hs & Hl)].
  - exists "". split; [reflexivity | exact I].
  - cbn [lstrip]. destruct (isspace a) eqn:Ea.
    + exists (String a l). cbn [append]. split; [now rewrite <- Hs | now split].
    + exists "". split; [reflexivity | exact I].
Qed.

Lemma rstrip_decompose (s : string) :
  exists r, s = rstrip s ++ r /\ all_space r.
Proof.
  induction s as [|a s (r & Hs & Hr)].
  - exists "". split; [reflexivity | exact I].
  - cbn [rstrip]. destruct (rstrip s) as [|b kept].
    + cbn [append] in Hs. subst s. destruct (isspace a) eqn:Ea.
      * exists (String a r). split; [reflexivity | now split].
      * exists r. split; [reflexivity | exact Hr].
    + exists r. split; [|exact Hr]. cbn [append] in *. now rewrite <- Hs.
Qed.

Lemma strip_decompose (s : string) :
  exists l r, s = l ++ strip s ++ r /\ all_space l /\ all_space r.
Proof.
  destruct (lstrip_decompose s) as (l & Hs & Hl).
  destruct (rstrip_decompose (lstrip s)) as (r & Hs' & Hr).
  exists l, r. unfold strip. rewrite <- Hs', <- Hs. now split.
Qed.

Lemma lstrip_first (s : string) :
  match lstrip s with
  | String a _ => isspace a = false
  | EmptyString => True
  end.
Proof.
  induction s as [|a s IH]; [exact I|].
  cbn [lstrip]. now destruct (isspace a) eqn:Ea.
Qed.

Lemma rstrip_first (s : string) :
  match s with
  | String a _ => isspace a = false -> exists kept, rstrip s = String a kept
  | EmptyString => True
  end.
Proof.
  destruct s as [|a s]; [exact I|]. intros Ea. cbn [rstrip].
  destruct (rstrip s); [rewrite Ea|]; eauto.
Qed.

Lemma strip_first (s : string) :
  match strip s with
  | String a _ => isspace a = false
  | EmptyString => True
  end.
Proof.
  unfold strip. pose proof (lstrip_first s) as H.
  pose proof (rstrip_first (lstrip s)) as H'.
  destruct (lstrip s) as [|a t]; [exact I|].
  destruct (H' H) as [kept ->]. exact H.
Qed.

Lemma rstrip_last (s t : string) (a : ascii) :
  rstrip s = t ++ String a "" -> isspace a = false.
Proof.
  revert t. induction s as [|b s IH]; intros t H.
  - destruct t; discriminate.
  - cbn [rstrip] in H. destruct (rstrip s) as [|c kept].
    + destruct (isspace b) eqn:Eb; [destruct t; discriminate|].
      destruct t as [|x [|y t]]; try discriminate.
      now injection H as <-.
    + destruct t as [|x t]; [discriminate|].
      injection H as _ H. now apply (IH t).
Qed.

Lemma strip_last (s t : string) (a : ascii) :
  strip s = t ++ String a "" -> isspace a = false.
Proof. apply rstrip_last. Qed.

(** ** The namespace resolver *)

Lemma nest_is_dict (keys : list string) (items : list (string * yaml)) :
  exists items', nest keys (YDict items) = YDict items'.
Proof. destruct keys; simpl; eauto. Qed.

Lemma has_marker_false (items : list (string * yaml)) :
  has_marker (YDict items) = false -> dict_get marker items = None.
Proof.
  unfold has_marker, dict_mem. now destruct (dict_get marker items).
Qed.

Lemma resolver_step (key : string) (inner : list (string * yaml)) (ns : string) :
  dict_get marker inner = None ->
  get_node_config_and_ns (YDict [(key, YDict inner)]) ns =
  get_node_config_and_ns (YDict inner)
    (if (ns =? "")%string then key else ns ++ "/" ++ key).
Proof.
  intros H. simpl. unfold marker in H. now rewrite H.
Qed.

(** Down a chain of single keys the resolver behaves as on the level at its
    end, with the keys accumulated. *)
Lemma resolver_descends (keys : list string) (items : list (string * yaml)) :
  marker_free_above keys (YDict items) ->
  forall ns,
    get_node_config_and_ns (nest keys (YDict items)) ns =
    get_node_config_and_ns (YDict items) (accumulate ns keys).
Proof.
  induction keys as [|key keys IH]; intros Hfree ns; [reflexivity|].
  destruct Hfree as [Hm Hfree].
  change (nest (key :: keys) (YDict items))
    with (YDict [(key, nest keys (YDict items))]).
  destruct (nest_is_dict keys items) as [inner Hinner].
  rewrite Hinner in Hm |- *.
  rewrite resolver_step by now apply has_marker_false.
  rewrite <- Hinner. now rewrite IH.
Qed.

Lemma accumulate_nonempty (a : ascii) (ns : string) (keys : list string) :
  accumulate (String a ns) keys = String a ns ++ separated keys.
Proof.
  revert a ns. induction keys as [|key keys IH]; intros a ns.
  - simpl. now rewrite append_nil_r.
  - change (accumulate (String a (ns ++ String "/" key)) keys =
            String a ns ++ String "/" (key ++ separated keys)).
    rewrite IH. simpl. f_equal.
    change (String "/" key) with ("/" ++ key).
    now rewrite !append_assoc.
Qed.

Lemma join_cons (key : string) (keys : list string) :
  join "/" (key :: keys) = key ++ separated keys.
Proof.
  revert key. induction keys as [|k keys IH]; intros key.
  - simpl. now rewrite append_nil_r.
  - change (key ++ "/" ++ join "/" (k :: keys) =
            key ++ "/" ++ k ++ separated keys).
    now rewrite IH.
Qed.

Lemma accumulate_join (keys : list string) :
  accumulate "" keys = join "/" (drop_empty keys).
Proof.
  induction keys as [|key keys IH]; [reflexivity|].
  destruct key as [|a key].
  - exact IH.
  - change (accumulate (String a key) keys = join "/" (String a key :: keys)).
    now rewrite accumulate_nonempty, join_cons.
Qed.

Lemma drop_empty_nonempty (keys : list string) :
  Forall (fun key => key <> "") keys -> drop_empty keys = keys.
Proof.
  intros H. destruct H as [|key keys Hk _]; [reflexivity|].
  destruct key; [congruence | reflexivity].
Qed.

(** C1 (as the code has it).  A document with one key at each level down to
    the level [node], whose only value is a mapping with the marker
    [ros__parameters] bound to a mapping: the resolver returns [node] itself,
    unchanged and still keyed by the node name, with the namespace made of
    the keys above it joined by "/", the empty keys at the front of the chain
    left out.  The namespace is the empty string when the marker is at the
    top level. *)
Theorem resolver_finds_node
    (keys : list string) (node_name : string)
    (node_items params : list (string * yaml)) :
  dict_get marker node_items = Some (YDict params) ->
  marker_free_above keys (YDict [(node_name, YDict node_items)]) ->
  get_node_config_and_ns (nest keys (YDict [(node_name, YDict node_items)])) "" =
    Ok (YDict [(node_name, YDict node_items)], join "/" (drop_empty keys)).
Proof.
  intros Hparams Hfree.
  rewrite resolver_descends by exact Hfree.
  simpl. unfold marker in Hparams. rewrite Hparams. simpl.
  now rewrite accumulate_join.
Qed.

Lemma resolver_finds_node_witness :
  get_node_config_and_ns
    (YDict [("robot", YDict [("arm", YDict [("arm_node",
       YDict [("ros__parameters", YDict [("rate", YInt 10)]);
              ("other", YNone)])])])]) "" =
  Ok (YDict [("arm_node",
        YDict [("ros__parameters", YDict [("rate", YInt 10)]);
               ("other", YNone)])],
      "robot/arm").
Proof.
  apply (resolver_finds_node ["robot"; "arm"] "arm_node"
           [("ros__parameters", YDict [("rate", YInt 10)]); ("other", YNone)]
           [("rate", YInt 10)]).
  - reflexivity.
  - simpl. repeat split; reflexivity.
Defined.

(** When no key of the chain is empty, the namespace is the joined chain of
    all the keys. *)
Corollary resolver_joins_nonempty_keys
    (keys : list string) (node_name : string)
    (node_items params : list (string * yaml)) :
  dict_get marker node_items = Some (YDict params) ->
  marker_free_above keys (YDict [(node_name, YDict node_items)]) ->
  Forall (fun key => key <> "") keys ->
  get_node_config_and_ns (nest keys (YDict [(node_name, YDict node_items)])) "" =
    Ok (YDict [(node_name, YDict node_items)], join "/" keys).
Proof.
  intros Hparams Hfree Hne.
  rewrite resolver_descends by exact Hfree.
  simpl. unfold marker in Hparams. rewrite Hparams. simpl.
  now rewrite accumulate_join, drop_empty_nonempty.
Qed.

(** C1 does not hold as stated: under an empty first key the namespace is not
    the joined chain of the keys. *)
Lemma resolver_skips_empty_key :
  let node := YDict [("n", YDict [("ros__parameters", YDict [])])] in
  dict_get marker [("ros__parameters", YDict [])] = Some (YDict [])
  /\ marker_free_above [""; "a"] node
  /\ nest [""; "a"] node = YDict [("", YDict [("a", node)])]
  /\ join "/" [""; "a"] = "/a"
  /\ get_node_config_and_ns (nest [""; "a"] node) "" = Ok (node, "a")
  /\ get_node_config_and_ns (nest [""; "a"] node) "" <>
       Ok (node, join "/" [""; "a"]).
Proof.
  cbv zeta. split; [reflexivity|]. split; [repeat split|].
  repeat (split; [reflexivity|]).
  vm_compute. intros H. discriminate H.
Qed.

(** C5.  A document in which the resolver comes, down a chain of single
    keys, to a mapping with two or more keys: the call fails with the
    exception that reports how many keys there are and which, whatever the
    namespace it started from. *)
Theorem resolver_rejects_several_keys
    (keys : list string) (items : list (string * yaml)) (namespace : string) :
  marker_free_above keys (YDict items) ->
  2 <= length items ->
  get_node_config_and_ns (nest keys (YDict items)) namespace =
    Err (ValueError (ExpectedOneKey (length items) (dict_keys items))).
Proof.
  intros Hfree Hlen.
  rewrite resolver_descends by exact Hfree.
  destruct items as [|i1 [|i2 items]]; simpl in Hlen; try lia.
  destruct i1 as [k1 v1]. simpl. unfold dict_keys.
  now rewrite length_map.
Qed.

Lemma resolver_rejects_several_keys_witness :
  get_node_config_and_ns
    (YDict [("robot", YDict [("arm", YDict []); ("leg", YDict [])])]) "" =
  Err (ValueError (ExpectedOneKey 2 ["arm"; "leg"])).
Proof.
  apply (resolver_rejects_several_keys ["robot"]
           [("arm", YDict []); ("leg", YDict [])] "").
  - simpl. repeat split; reflexivity.
  - simpl. lia.
Defined.

(** ** The remapping expander *)

Lemma split_free (c : ascii) (s : string) : free_of c s -> split c s = [s].
Proof.
  induction s as [|a s IH]; intros H; [reflexivity|].
  destruct H as [Ha Hs]. simpl.
  apply Ascii.eqb_neq in Ha. rewrite Ha, (IH Hs). reflexivity.
Qed.

Lemma split_append (c : ascii) (a b : string) :
  free_of c a -> split c (a ++ String c b) = a :: split c b.
Proof.
  induction a as [|x a IH]; intros H; simpl.
  - now rewrite Ascii.eqb_refl.
  - destruct H as [Hx Ha]. apply Ascii.eqb_neq in Hx.
    now rewrite Hx, (IH Ha).
Qed.

Lemma split_sides (a b : string) :
  free_of ":" a -> free_of ":" b -> split ":" (a ++ ":" ++ b) = [a; b].
Proof.
  intros Ha Hb. change (a ++ ":" ++ b) with (a ++ String ":" b).
  now rewrite split_append, split_free.
Qed.

Lemma split_length (c : ascii) (s : string) :
  length (split c s) = S (count_char c s).
Proof.
  induction s as [|a s IH]; [reflexivity|]. simpl.
  destruct (a =? c)%char; simpl.
  - now rewrite IH.
  - destruct (split c s); simpl in *; lia.
Qed.

Lemma split_one_inv (c : ascii) (s part : string) :
  split c s = [part] -> s = part /\ free_of c part.
Proof.
  revert part. induction s as [|a s IH]; intros part H.
  - injection H as <-. now split.
  - cbn [split] in H. destruct (a =? c)%char eqn:Ea.
    + injection H as _ H. pose proof (split_length c s) as Hlen.
      rewrite H in Hlen. discriminate Hlen.
    + destruct (split c s) as [|p ps] eqn:Hs.
      * pose proof (split_length c s) as Hlen. rewrite Hs in Hlen.
        discriminate Hlen.
      * injection H as <- ->. destruct (IH p eq_refl) as [-> Hp].
        split; [reflexivity|]. split; [now apply Ascii.eqb_neq | exact Hp].
Qed.

Lemma split_two_inv (c : ascii) (s a b : string) :
  split c s = [a; b] -> s = a ++ String c b /\ free_of c a /\ free_of c b.
Proof.
  revert a. induction s as [|x s IH]; intros a H; [discriminate|].
  cbn [split] in H. destruct (x =? c)%char eqn:Ex.
  - injection H as <- H. apply Ascii.eqb_eq in Ex. subst x.
    destruct (split_one_inv c s b H) as [-> Hb]. now repeat split.
  - destruct (split c s) as [|p ps] eqn:Hs; [discriminate|].
    injection H as <- ->. destruct (IH p eq_refl) as (-> & Hp & Hb).
    split; [reflexivity|]. split; [|exact Hb].
    split; [now apply Ascii.eqb_neq | exact Hp].
Qed.

(** What the two loops ask of an entry: a string that splits on ":" into two
    sides, both non-empty once trimmed *)
Lemma entry_sides_inv (s : string) :
  negb (length (split ":" s) =? 2)%nat = false ->
  (strip (nth 0 (split ":" s) "") =? "")%string
  || (strip (nth 1 (split ":" s) "") =? "")%string = false ->
  exists a b,
    s = a ++ ":" ++ b /\ valid_sides a b
    /\ nth 0 (split ":" s) "" = a /\ nth 1 (split ":" s) "" = b.
Proof.
  intros Hlen Hsides.
  destruct (split ":" s) as [|a [|b [|x parts]]] eqn:Hs; try discriminate Hlen.
  destruct (split_two_inv _ _ _ _ Hs) as (-> & Ha & Hb).
  cbn [nth] in Hsides |- *. apply orb_false_elim in Hsides.
  destruct Hsides as [Hfrom Hto].
  apply String.eqb_neq in Hfrom, Hto.
  exists a, b. repeat split; assumption.
Qed.

Lemma eqb_empty (s : string) : s <> "" -> (s =? "")%string = false.
Proof. intros H. now apply String.eqb_neq. Qed.

(** The loop of [parse_section] goes through valid entries and collects
    their remappings. *)
Lemma parse_items_valid (section_name : string) (good : list yaml)
    (pairs : list remapping) :
  Forall2 parses_to good pairs ->
  forall rest result,
    parse_items section_name (good ++ rest) result =
    parse_items section_name rest (result ++ pairs).
Proof.
  induction 1 as [|item pair good pairs Hitem _ IH]; intros rest result.
  - simpl. now rewrite app_nil_r.
  - destruct Hitem as [a b (Ha & Hb & Hfrom & Hto)].
    change ((YStr (a ++ ":" ++ b) :: good) ++ rest)%list
      with (YStr (a ++ ":" ++ b) :: (good ++ rest))%list.
    cbn [parse_items]. rewrite split_sides by assumption.
    cbn [length Nat.eqb negb nth].
    rewrite (eqb_empty _ Hfrom), (eqb_empty _ Hto). cbn [orb].
    rewrite IH. now rewrite <- app_assoc.
Qed.

(** The loop of [parse_section] returns for valid entries only. *)
Lemma parse_items_inv (section_name : string) (section : list yaml) :
  forall result pairs,
    parse_items section_name section result = Ok pairs ->
    exists found,
      Forall2 parses_to section found /\ pairs = (result ++ found)%list.
Proof.
  induction section as [|item section IH]; intros result pairs H.
  - injection H as <-. exists []. split; [constructor | now rewrite app_nil_r].
  - cbn [parse_items] in H. destruct item; try discriminate H.
    destruct (negb (length (split ":" s) =? 2)%nat) eqn:Hlen; [discriminate|].
    destruct ((strip (nth 0 (split ":" s) "") =? "")%string
              || (strip (nth 1 (split ":" s) "") =? "")%string) eqn:Hsides;
      [discriminate|].
    destruct (entry_sides_inv s Hlen Hsides) as (a & b & -> & Hvalid & Ha & Hb).
    rewrite Ha, Hb in H.
    destruct (IH _ _ H) as (found & Hfound & ->).
    exists ((strip a, strip b) :: found). split.
    + constructor; [now constructor | exact Hfound].
    + now rewrite <- app_assoc.
Qed.

(** The same for the loop of [get_remappings_for_actions], five remappings
    an entry. *)
Lemma expand_actions_valid (entries : list (string * string)) :
  Forall (fun e => valid_sides (fst e) (snd e)) entries ->
  forall remapping_list,
    expand_actions (map (fun e => YStr (fst e ++ ":" ++ snd e)) entries)
      remapping_list =
    Ok (remapping_list ++
        flat_map (fun e => fan_out (strip (fst e)) (strip (snd e))) entries)%list.
Proof.
  induction 1 as [|[a b] entries (Ha & Hb & Hfrom & Hto) _ IH];
    intros remapping_list.
  - simpl. now rewrite app_nil_r.
  - cbn [map fst snd expand_actions] in *.
    rewrite split_sides by assumption.
    cbn [length Nat.eqb negb nth].
    rewrite (eqb_empty _ Hfrom), (eqb_empty _ Hto). cbn [orb].
    rewrite IH. cbn [flat_map fst snd]. unfold fan_out, suffixes.
    cbn [fold_left]. rewrite <- !app_assoc. reflexivity.
Qed.

(** The loop of [get_remappings_for_actions] returns for valid entries
    only. *)
Lemma expand_actions_inv (actions_yaml : list yaml) :
  forall remapping_list pairs,
    expand_actions actions_yaml remapping_list = Ok pairs ->
    exists entries,
      actions_yaml = map (fun e => YStr (fst e ++ ":" ++ snd e)) entries
      /\ Forall (fun e => valid_sides (fst e) (snd e)) entries.
Proof.
  induction actions_yaml as [|item actions_yaml IH]; intros remapping_list pairs H.
  - exists []. now split.
  - cbn [expand_actions] in H. destruct item; try discriminate H.
    destruct (negb (length (split ":" s) =? 2)%nat) eqn:Hlen; [discriminate|].
    destruct ((strip (nth 0 (split ":" s) "") =? "")%string
              || (strip (nth 1 (split ":" s) "") =? "")%string) eqn:Hsides;
      [discriminate|].
    destruct (entry_sides_inv s Hlen Hsides) as (a & b & -> & Hvalid & _).
    destruct (IH _ _ H) as (entries & -> & Hentries).
    exists ((a, b) :: entries). split; [reflexivity|].
    constructor; assumption.
Qed.

(** C2.  Whatever list is given to the actions section, the call returns
    exactly when every entry is a valid "from:to" (one colon, both sides
    non-empty once trimmed), and then every entry has become exactly five
    remappings: the suffixes [/_action/feedback], [/_action/status],
    [/_action/cancel_goal], [/_action/get_result] and [/_action/send_goal]
    appended in this order to the trimmed source and to the trimmed
    destination, the entries in the order of the list. *)
Theorem actions_fan_out (actions_yaml : list yaml) (pairs : list remapping) :
  get_remappings_for_actions (YList actions_yaml) = Ok pairs <->
  exists entries : list (string * string),
    actions_yaml = map (fun e => YStr (fst e ++ ":" ++ snd e)) entries
    /\ Forall (fun e => valid_sides (fst e) (snd e)) entries
    /\ pairs =
       flat_map
         (fun e =>
            let from_prefix := strip (fst e) in
            let to_prefix := strip (snd e) in
            [ (from_prefix ++ "/_action/feedback", to_prefix ++ "/_action/feedback");
              (from_prefix ++ "/_action/status", to_prefix ++ "/_action/status");
              (from_prefix ++ "/_action/cancel_goal", to_prefix ++ "/_action/cancel_goal");
              (from_prefix ++ "/_action/get_result", to_prefix ++ "/_action/get_result");
              (from_prefix ++ "/_action/send_goal", to_prefix ++ "/_action/send_goal") ])
         entries.
Proof.
  unfold get_remappings_for_actions. split.
  - intros H. destruct (expand_actions_inv _ _ _ H) as (entries & -> & Hentries).
    exists entries. split; [reflexivity|]. split; [exact Hentries|].
    rewrite (expand_actions_valid entries Hentries []) in H.
    now injection H as <-.
  - intros (entries & -> & Hentries & ->).
    now rewrite (expand_actions_valid entries Hentries []).
Qed.

Lemma actions_fan_out_witness :
  get_remappings_for_actions (YList [YStr "g:h"; YStr " arm/move : base/move "]) =
  Ok [ ("g/_action/feedback", "h/_action/feedback");
       ("g/_action/status", "h/_action/status");
       ("g/_action/cancel_goal", "h/_action/cancel_goal");
       ("g/_action/get_result", "h/_action/get_result");
       ("g/_action/send_goal", "h/_action/send_goal");
       ("arm/move/_action/feedback", "base/move/_action/feedback");
       ("arm/move/_action/status", "base/move/_action/status");
       ("arm/move/_action/cancel_goal", "base/move/_action/cancel_goal");
       ("arm/move/_action/get_result", "base/move/_action/get_result");
       ("arm/move/_action/send_goal", "base/move/_action/send_goal") ].
Proof.
  apply (proj2 (actions_fan_out _ _)).
  exists [("g", "h"); (" arm/move ", " base/move ")].
  split; [reflexivity|]. split; [|reflexivity].
  repeat constructor; simpl; discriminate.
Defined.

Lemma parse_section_list (ros_remappings : list (string * yaml))
    (section_name : string) (section : list yaml) :
  dict_get section_name ros_remappings = Some (YList section) ->
  parse_section ros_remappings section_name =
  parse_items section_name section [].
Proof. intros H. unfold parse_section. now rewrite H. Qed.

(** C4 (as the code has it).  A section of [get_remappings] that is present
    in [ros_remappings]:
    - a value that is neither null nor a list is an error that names the
      section;
    - in a list, the first entry that is not valid is an error: one that is
      not a string is reported with the section and the name of its type, one
      that splits on ":" into a number of parts other than 2 (no colon, or
      more than one) with the section and the entry, one with a side that is
      empty once trimmed with the section and the entry;
    - a list gives remappings exactly when all its entries are valid: their
      sides, trimmed, in the order of the list. *)
Theorem section_is_validated (ros_remappings : list (string * yaml))
    (section_name : string) (section : yaml) :
  dict_get section_name ros_remappings = Some section ->
  (section <> YNone -> (forall l, section <> YList l) ->
   parse_section ros_remappings section_name =
     Err (ValueError (ExpectedListFor section_name)))
  /\ (forall good pairs bad rest,
        section = YList (good ++ bad :: rest) ->
        Forall2 parses_to good pairs ->
        (is_str bad = false ->
         parse_section ros_remappings section_name =
           Err (ValueError (RemappingMustBeStr section_name (type_name bad))))
        /\ (forall s, bad = YStr s -> count_char ":" s <> 1 ->
            parse_section ros_remappings section_name =
              Err (ValueError (InvalidFormatIn section_name s)))
        /\ (forall a b, bad = YStr (a ++ ":" ++ b) ->
            free_of ":" a -> free_of ":" b ->
            strip a = "" \/ strip b = "" ->
            parse_section ros_remappings section_name =
              Err (ValueError (EmptyFieldIn section_name (a ++ ":" ++ b)))))
  /\ (forall good pairs,
        section = YList good ->
        (parse_section ros_remappings section_name = Ok pairs <->
         Forall2 parses_to good pairs)).
Proof.
  intros Hget. split; [|split].
  - intros Hnone Hlist. unfold parse_section. rewrite Hget.
    destruct section; try reflexivity; [congruence | now elim (Hlist l)].
  - intros good pairs bad rest -> Hgood.
    rewrite (parse_section_list _ _ _ Hget).
    rewrite (parse_items_valid section_name good pairs Hgood).
    split; [|split].
    + intros Hstr. destruct bad; try reflexivity; discriminate Hstr.
    + intros s -> Hcount. cbn [parse_items].
      rewrite split_length.
      destruct (count_char ":" s) as [|[|n]]; try reflexivity. congruence.
    + intros a b -> Ha Hb Hempty. cbn [parse_items].
      rewrite split_sides by assumption. cbn [length Nat.eqb negb nth].
      destruct Hempty as [-> | ->]; [reflexivity|].
      now rewrite orb_true_r.
  - intros good pairs ->.
    rewrite (parse_section_list _ _ _ Hget). split.
    + intros H. destruct (parse_items_inv _ _ _ _ H) as (found & Hfound & ->).
      exact Hfound.
    + intros Hgood. rewrite <- (app_nil_r good).
      now rewrite (parse_items_valid section_name good pairs Hgood).
Qed.

Lemma section_is_validated_witness :
  parse_section [("topics", YList [YStr "a:b"; YStr "a:b:c"; YInt 3])] "topics" =
    Err (ValueError (InvalidFormatIn "topics" "a:b:c"))
  /\ parse_section [("services", YList [YStr ":b"])] "services" =
       Err (ValueError (EmptyFieldIn "services" ":b"))
  /\ parse_section [("topics", YList [YStr "a"])] "topics" =
       Err (ValueError (InvalidFormatIn "topics" "a"))
  /\ parse_section [("topics", YList [YStr " a : b "; YBool true])] "topics" =
       Err (ValueError (RemappingMustBeStr "topics" "bool"))
  /\ parse_section [("topics", YStr "a:b")] "topics" =
       Err (ValueError (ExpectedListFor "topics"))
  /\ parse_section [("topics", YList [YStr "a:b"])] "topics" = Ok [("a", "b")].
Proof.
  assert (Hab : parses_to (YStr "a:b") ("a", "b")).
  { apply (parses_to_sides "a" "b"). repeat split; simpl; discriminate. }
  assert (Hab' : parses_to (YStr " a : b ") ("a", "b")).
  { apply (parses_to_sides " a " " b "). repeat split; simpl; discriminate. }
  refine (conj _ (conj _ (conj _ (conj _ (conj _ _))))).
  - refine (proj1 (proj2 (proj1 (proj2
      (section_is_validated
         [("topics", YList [YStr "a:b"; YStr "a:b:c"; YInt 3])] "topics" _
         eq_refl))
      [YStr "a:b"] [("a", "b")] (YStr "a:b:c") [YInt 3] eq_refl _)) _ eq_refl _).
    + repeat constructor. exact Hab.
    + simpl. lia.
  - refine (proj2 (proj2 (proj1 (proj2
      (section_is_validated [("services", YList [YStr ":b"])] "services" _
         eq_refl))
      [] [] (YStr ":b") [] eq_refl _)) "" "b" eq_refl _ _ _).
    + constructor.
    + exact I.
    + simpl. split; [discriminate | exact I].
    + left. reflexivity.
  - refine (proj1 (proj2 (proj1 (proj2
      (section_is_validated [("topics", YList [YStr "a"])] "topics" _ eq_refl))
      [] [] (YStr "a") [] eq_refl _)) _ eq_refl _).
    + constructor.
    + simpl. lia.
  - refine (proj1 (proj1 (proj2
      (section_is_validated
         [("topics", YList [YStr " a : b "; YBool true])] "topics" _ eq_refl))
      [YStr " a : b "] [("a", "b")] (YBool true) [] eq_refl _) eq_refl).
    repeat constructor. exact Hab'.
  - refine (proj1
      (section_is_validated [("topics", YStr "a:b")] "topics" _ eq_refl) _ _).
    + discriminate.
    + intros l. discriminate.
  - refine (proj2 (proj2 (proj2
      (section_is_validated [("topics", YList [YStr "a:b"])] "topics" _ eq_refl))
      [YStr "a:b"] [("a", "b")] eq_refl) _).
    repeat constructor. exact Hab.
Defined.

(** C4 does not hold as stated: a section that is present with a null value
    is not a list and is accepted, and the error for an entry that is not a
    string does not tell which entry it is. *)
Lemma section_null_is_accepted :
  dict_get "topics" [("topics", YNone)] = Some YNone
  /\ (forall l, YNone <> YList l)
  /\ parse_section [("topics", YNone)] "topics" = Ok []
  /\ get_remappings (YDict [("topics", YNone)]) = Ok []
  /\ parse_section [("topics", YList [YInt 5])] "topics" =
     parse_section [("topics", YList [YInt 7])] "topics".
Proof.
  repeat split. intros l. discriminate.
Qed.

(** C8.  Without a remapping specification ([None]) the remapping expander
    returns the empty list, and so it does for a specification in which
    none of the three sections is there, its key missing or bound to null. *)
Theorem remappings_absent :
  get_remappings YNone = Ok []
  /\ forall ros_remappings : list (string * yaml),
       (forall section_name,
          In section_name ["topics"; "services"; "actions"] ->
          dict_get section_name ros_remappings = None
          \/ dict_get section_name ros_remappings = Some YNone) ->
       get_remappings (YDict ros_remappings) = Ok [].
Proof.
  split; [reflexivity|].
  intros d H. unfold get_remappings, parse_section.
  destruct (H "topics") as [-> | ->]; [simpl; tauto| |];
    (destruct (H "services") as [-> | ->]; [simpl; tauto| |]);
    (destruct (H "actions") as [-> | ->]; [simpl; tauto| |]); reflexivity.
Qed.

Lemma remappings_absent_witness :
  get_remappings YNone = Ok []
  /\ get_remappings (YDict []) = Ok []
  /\ get_remappings (YDict [("other", YInt 1); ("actions", YNone)]) = Ok [].
Proof.
  split; [exact (proj1 remappings_absent)|].
  split; apply (proj2 remappings_absent); intros name Hin; simpl in Hin;
    decompose [or] Hin; subst; try contradiction; simpl; auto.
Defined.

(** ** Regular expressions *)

Lemma substring_prefix (p r : string) : substring 0 (String.length p) (p ++ r) = p.
Proof.
  induction p as [|a p IH]; simpl.
  - now destruct r.
  - now rewrite IH.
Qed.

Lemma consumed_append (p r : string) : consumed (p ++ r) r = p.
Proof.
  unfold consumed. rewrite length_append, Nat.add_sub.
  apply substring_prefix.
Qed.

Lemma skip_literal_append (text s : string) : skip_literal text (text ++ s) = Some s.
Proof.
  induction text as [|c text IH]; simpl; [reflexivity|].
  now rewrite Ascii.eqb_refl.
Qed.

Lemma skip_literal_inv (text s s' : string) :
  skip_literal text s = Some s' -> s = text ++ s'.
Proof.
  revert s. induction text as [|c text IH]; intros s H; simpl in *.
  - congruence.
  - destruct s as [|a s]; [discriminate|].
    destruct (a =? c)%char eqn:E; [|discriminate].
    apply Ascii.eqb_eq in E. subst a. now rewrite (IH s H).
Qed.

Lemma span_append_eq (cc : char_class) (s : string) :
  s = fst (span cc s) ++ snd (span cc s).
Proof.
  induction s as [|a s IH]; simpl; [reflexivity|].
  destruct (accepts cc a); [|reflexivity].
  destruct (span cc s) as [run rest]. simpl in *. now rewrite <- IH.
Qed.

Lemma span_all_in (cc : char_class) (s : string) : all_in cc (fst (span cc s)).
Proof.
  induction s as [|a s IH]; simpl; [exact I|].
  destruct (accepts cc a) eqn:E; [|exact I].
  destruct (span cc s) as [run rest]. simpl in *. now split.
Qed.

Lemma span_stops (cc : char_class) (s : string) : stops cc (snd (span cc s)).
Proof.
  induction s as [|a s IH]; simpl; [exact I|].
  destruct (accepts cc a) eqn:E; [|exact E].
  now destruct (span cc s) as [run rest].
Qed.

Lemma span_unique (cc : char_class) (p r : string) :
  all_in cc p -> stops cc r -> span cc (p ++ r) = (p, r).
Proof.
  induction p as [|a p IH]; intros Hp Hr; cbn [append span].
  - destruct r as [|b r]; [reflexivity|]. cbn [stops] in Hr.
    cbn [span]. now rewrite Hr.
  - destruct Hp as [Ha Hp]. now rewrite Ha, (IH Hp Hr).
Qed.

Lemma all_in_not_char (c : ascii) (s : string) :
  all_in (NotChar c) s <-> free_of c s.
Proof.
  induction s as [|a s IH]; simpl; [tauto|].
  rewrite IH, negb_true_iff, Ascii.eqb_neq. tauto.
Qed.

Lemma all_in_any_char (s : string) : all_in AnyChar s <-> free_of newline s.
Proof.
  induction s as [|a s IH]; simpl; [tauto|].
  rewrite IH, negb_true_iff, Ascii.eqb_neq. tauto.
Qed.

(** A run followed by something that succeeds right after the longest run *)
Lemma many_greedy (cc : char_class) (s : string) (gs m : groups)
    (k : continuation) :
  k (snd (span cc s)) gs = Some m -> many cc s gs k = Some m.
Proof.
  induction s as [|a s IH]; simpl; [trivial|].
  destruct (accepts cc a); [|trivial].
  destruct (span cc s) as [run rest]. simpl in *.
  intros H. now rewrite (IH H).
Qed.

(** A run followed by something that fails wherever the run could go on:
    only the longest run counts *)
Lemma many_longest (cc : char_class) (s : string) (gs : groups)
    (k : continuation) :
  (forall a s', accepts cc a = true -> k (String a s') gs = None) ->
  many cc s gs k = k (snd (span cc s)) gs.
Proof.
  intros Hk. induction s as [|a s IH]; simpl; [reflexivity|].
  destruct (accepts cc a) eqn:E; [|reflexivity].
  rewrite IH. destruct (span cc s) as [run rest]. simpl.
  destruct (k rest gs) eqn:Ek; [reflexivity|].
  now apply Hk.
Qed.

Lemma consumed_span (cc : char_class) (p s : string) :
  consumed (p ++ s) (snd (span cc s)) = p ++ fst (span cc s).
Proof.
  rewrite (span_append_eq cc s) at 1.
  rewrite <- append_assoc. apply consumed_append.
Qed.

Lemma re_match_pattern1 (s : string) : re_match pattern1 s = match_package s.
Proof.
  unfold re_match, pattern1, match_package. cbn [rmatch].
  destruct (skip_literal "package://" s) as [t|]; [|reflexivity].
  destruct t as [|a t]; [reflexivity|].
  cbn [span]. destruct (accepts (NotChar "/") a) eqn:Ea; [|reflexivity].
  rewrite many_longest.
  2:{ intros b s' Hb. simpl in Hb. apply negb_true_iff in Hb.
      simpl. now rewrite Hb. }
  change (String a t) with (String a "" ++ t). rewrite consumed_span.
  destruct (span (NotChar "/") t) as [pkg t1]. cbn [fst snd append app].
  destruct t1 as [|c t']; [reflexivity|].
  change (accepts (Char "/") c) with (c =? "/")%char.
  destruct (c =? "/")%char; [|reflexivity].
  destruct t' as [|b t'']; [reflexivity|].
  cbn [span]. destruct (accepts AnyChar b) eqn:Eb; [|reflexivity].
  erewrite many_greedy by reflexivity.
  change (String b t'') with (String b "" ++ t''). rewrite consumed_span.
  destruct (span AnyChar t'') as [rest after]. reflexivity.
Qed.

Lemma re_match_pattern2 (s : string) : re_match pattern2 s = match_file s.
Proof.
  unfold re_match, pattern2, match_file. cbn [rmatch].
  destruct (skip_literal "file://" s) as [t|]; [|reflexivity].
  destruct t as [|c t']; [reflexivity|].
  change (accepts (Char "/") c) with (c =? "/")%char.
  destruct (c =? "/")%char; [|reflexivity].
  destruct t' as [|b t'']; [reflexivity|].
  cbn [span]. destruct (accepts AnyChar b) eqn:Eb; [|reflexivity].
  erewrite many_greedy by reflexivity.
  change (String c (String b t'')) with (String c (String b "") ++ t'').
  rewrite consumed_span.
  destruct (span AnyChar t'') as [rest after]. reflexivity.
Qed.

Lemma ends_line_stops (after : string) : ends_line after <-> stops AnyChar after.
Proof.
  destruct after as [|a after]; simpl; [tauto|].
  rewrite negb_false_iff, Ascii.eqb_eq. tauto.
Qed.

Lemma span_nonempty (cc : char_class) (p r : string) :
  all_in cc p -> p <> "" -> fst (span cc (p ++ r)) <> "".
Proof.
  destruct p as [|a p]; [congruence|]. intros [Ha _] _.
  cbn [append span]. rewrite Ha. now destruct (span cc (p ++ r)).
Qed.

(** [match_package] finds what the description of a match says, with the
    rest as long as it can be. *)
Lemma match_package_complete (pkg rest after : string) :
  package_uri_at ("package://" ++ pkg ++ "/" ++ rest ++ after) "" pkg rest after ->
  ends_line after ->
  match_package ("package://" ++ pkg ++ "/" ++ rest ++ after) = Some [pkg; rest].
Proof.
  intros (_ & Hpkg & Hfree & Hrest & Hline) Hafter.
  unfold match_package. rewrite skip_literal_append.
  rewrite (span_unique (NotChar "/") pkg ("/" ++ rest ++ after)).
  2:{ now apply all_in_not_char. }
  2:{ reflexivity. }
  destruct pkg as [|a pkg]; [congruence|].
  cbn [append]. rewrite Ascii.eqb_refl.
  rewrite (span_unique AnyChar rest after).
  2:{ now apply all_in_any_char. }
  2:{ now apply ends_line_stops. }
  destruct rest; [congruence | reflexivity].
Qed.

Lemma match_package_sound (s : string) (m : groups) :
  match_package s = Some m ->
  exists pkg rest after,
    m = [pkg; rest] /\ package_uri_at s "" pkg rest after /\ ends_line after.
Proof.
  unfold match_package.
  destruct (skip_literal "package://" s) as [t|] eqn:Hs; [|discriminate].
  apply skip_literal_inv in Hs.
  pose proof (span_append_eq (NotChar "/") t) as Ht.
  pose proof (span_all_in (NotChar "/") t) as Hpkg.
  destruct (span (NotChar "/") t) as [pkg t1]. cbn [fst snd] in *.
  destruct pkg as [|a pkg]; [discriminate|].
  destruct t1 as [|c t']; [discriminate|].
  destruct (c =? "/")%char eqn:Ec; [|discriminate].
  apply Ascii.eqb_eq in Ec. subst c.
  pose proof (span_append_eq AnyChar t') as Ht'.
  pose proof (span_all_in AnyChar t') as Hrest.
  pose proof (span_stops AnyChar t') as Hafter.
  destruct (span AnyChar t') as [rest after]. cbn [fst snd] in *.
  destruct rest as [|b rest]; [discriminate|].
  intros [= <-]. exists (String a pkg), (String b rest), after.
  split; [reflexivity|]. split; [|now apply ends_line_stops].
  unfold package_uri_at. rewrite Hs, Ht, Ht'.
  split; [reflexivity|]. split; [discriminate|].
  split; [now apply all_in_not_char|].
  split; [discriminate | now apply all_in_any_char].
Qed.

(** A match at the start of [s], as long as it can be or not, makes
    [match_package] succeed. *)
Lemma match_package_some (s pkg rest after : string) :
  package_uri_at s "" pkg rest after -> match_package s <> None.
Proof.
  intros (Hs & Hpkg & Hfree & Hrest & Hline).
  change (s = "package://" ++ pkg ++ "/" ++ rest ++ after) in Hs. subst s.
  unfold match_package. rewrite skip_literal_append.
  rewrite (span_unique (NotChar "/") pkg ("/" ++ rest ++ after)).
  2:{ now apply all_in_not_char. }
  2:{ reflexivity. }
  destruct pkg as [|a pkg]; [congruence|].
  cbn [append]. rewrite Ascii.eqb_refl.
  pose proof (span_nonempty AnyChar rest after) as Hne.
  destruct (fst (span AnyChar (rest ++ after))).
  - exfalso. apply Hne; [now apply all_in_any_char | assumption | reflexivity].
  - discriminate.
Qed.


Lemma match_file_sound (s : string) (m : groups) :
  match_file s = Some m ->
  exists rest after,
    m = ["/" ++ rest] /\ file_uri_at s "" rest after /\ ends_line after.
Proof.
  unfold match_file.
  destruct (skip_literal "file://" s) as [t|] eqn:Hs; [|discriminate].
  apply skip_literal_inv in Hs.
  destruct t as [|c t']; [discriminate|].
  destruct (c =? "/")%char eqn:Ec; [|discriminate].
  apply Ascii.eqb_eq in Ec. subst c.
  pose proof (span_append_eq AnyChar t') as Ht'.
  pose proof (span_all_in AnyChar t') as Hrest.
  pose proof (span_stops AnyChar t') as Hafter.
  destruct (span AnyChar t') as [rest after]. cbn [fst snd] in *.
  destruct rest as [|b rest]; [discriminate|].
  intros [= <-]. exists (String b rest), after.
  split; [reflexivity|]. split; [|now apply ends_line_stops].
  unfold file_uri_at. rewrite Hs, Ht'.
  split; [reflexivity|]. split; [discriminate | now apply all_in_any_char].
Qed.

Lemma match_file_some (s rest after : string) :
  file_uri_at s "" rest after -> match_file s <> None.
Proof.
  intros (Hs & Hrest & Hline).
  change (s = "file://" ++ "/" ++ rest ++ after) in Hs. subst s.
  unfold match_file. rewrite skip_literal_append.
  cbn [append]. rewrite Ascii.eqb_refl.
  pose proof (span_nonempty AnyChar rest after) as Hne.
  destruct (fst (span AnyChar (rest ++ after))).
  - exfalso. apply Hne; [now apply all_in_any_char | assumption | reflexivity].
  - discriminate.
Qed.

(** *** Searching *)

Section Search.

Variable r : regex.

Lemma re_search_here (s : string) (m : groups) :
  re_match r s = Some m -> re_search r s = Some m.
Proof. intros H. destruct s; simpl; now rewrite H. Qed.

Lemma re_search_next (a : ascii) (s : string) :
  re_match r (String a s) = None -> re_search r (String a s) = re_search r s.
Proof. intros H. simpl. now rewrite H. Qed.

(** The search returns the match at the first place where there is one. *)
Lemma re_search_first (before t : string) (m : groups) :
  re_match r t = Some m ->
  (forall before' t',
     before ++ t = before' ++ t' ->
     String.length before' < String.length before ->
     re_match r t' = None) ->
  re_search r (before ++ t) = Some m.
Proof.
  intros Hm. induction before as [|a before IH]; intros Hfirst.
  - now apply re_search_here.
  - cbn [append]. rewrite re_search_next.
    + apply IH. intros before' t' Heq Hlt.
      apply (Hfirst (String a before') t').
      * cbn [append]. now rewrite Heq.
      * simpl. lia.
    + apply (Hfirst "" (String a before ++ t)); [reflexivity | simpl; lia].
Qed.

Lemma re_search_none (s : string) :
  (forall before t, s = before ++ t -> re_match r t = None) ->
  re_search r s = None.
Proof.
  induction s as [|a s IH]; intros H.
  - simpl. now rewrite (H "" "").
  - rewrite re_search_next by now apply (H "").
    apply IH. intros before t ->. now apply (H (String a before)).
Qed.

Lemma re_search_none_inv (s : string) :
  re_search r s = None ->
  forall before t, s = before ++ t -> re_match r t = None.
Proof.
  intros H before. revert s H.
  induction before as [|a before IH]; intros s H t ->.
  - cbn [append] in H. destruct t; simpl in H;
      now destruct (re_match r _).
  - cbn [append] in H. simpl in H.
    destruct (re_match r (String a (before ++ t))); [discriminate|].
    now apply (IH _ H).
Qed.

End Search.

Lemma package_uri_at_shift (before t pkg rest after : string) :
  package_uri_at t "" pkg rest after ->
  package_uri_at (before ++ t) before pkg rest after.
Proof.
  intros (Ht & H). split; [|exact H].
  change (t = "package://" ++ pkg ++ "/" ++ rest ++ after) in Ht.
  now rewrite Ht.
Qed.

Lemma file_uri_at_shift (before t rest after : string) :
  file_uri_at t "" rest after -> file_uri_at (before ++ t) before rest after.
Proof.
  intros (Ht & H). split; [|exact H].
  change (t = "file://" ++ "/" ++ rest ++ after) in Ht.
  now rewrite Ht.
Qed.

(** [re.search] with [pattern1] returns the groups of the first package
    URI of the value. *)
Lemma search_package (value before pkg rest after : string) :
  first_package_uri value before pkg rest after ->
  re_search pattern1 value = Some [pkg; rest].
Proof.
  intros ((Hvalue & Huri) & Hafter & Hfirst). subst value.
  apply re_search_first.
  - rewrite re_match_pattern1. apply match_package_complete; [|exact Hafter].
    split; [reflexivity | exact Huri].
  - intros before' t' Heq Hlt.
    destruct (re_match pattern1 t') as [m|] eqn:Hm; [|reflexivity].
    rewrite re_match_pattern1 in Hm.
    destruct (match_package_sound _ _ Hm) as (pkg' & rest' & after' & _ & H' & _).
    apply (package_uri_at_shift before') in H'. rewrite <- Heq in H'.
    apply Hfirst in H'. lia.
Qed.


(** [re.search] with [pattern1] finds nothing exactly in the values without
    a package URI, and so [pattern2] for file URIs. *)
Lemma search_package_none (value : string) :
  re_search pattern1 value = None <-> no_package_uri value.
Proof.
  split.
  - intros H before pkg rest after Huri.
    destruct Huri as (Hvalue & Huri).
    apply (match_package_some ("package://" ++ pkg ++ "/" ++ rest ++ after)
             pkg rest after); [split; [reflexivity | exact Huri]|].
    rewrite <- re_match_pattern1.
    now apply (re_search_none_inv pattern1 value H before).
  - intros H. apply re_search_none. intros before t ->.
    destruct (re_match pattern1 t) as [m|] eqn:Hm; [|reflexivity].
    rewrite re_match_pattern1 in Hm.
    destruct (match_package_sound _ _ Hm) as (pkg & rest & after & _ & H' & _).
    apply (package_uri_at_shift before) in H'. now apply H in H'.
Qed.

Lemma search_file_none (value : string) :
  re_search pattern2 value = None <-> no_file_uri value.
Proof.
  split.
  - intros H before rest after Huri.
    destruct Huri as (Hvalue & Huri).
    apply (match_file_some ("file://" ++ "/" ++ rest ++ after) rest after);
      [split; [reflexivity | exact Huri]|].
    rewrite <- re_match_pattern2.
    now apply (re_search_none_inv pattern2 value H before).
  - intros H. apply re_search_none. intros before t ->.
    destruct (re_match pattern2 t) as [m|] eqn:Hm; [|reflexivity].
    rewrite re_match_pattern2 in Hm.
    destruct (match_file_sound _ _ Hm) as (rest & after & _ & H' & _).
    apply (file_uri_at_shift before) in H'. now apply H in H'.
Qed.

(** ** The path expander *)

Section Expansion.

Variable lookup : string -> res string.

Lemma expand_value_package (value before pkg rest after : string) :
  first_package_uri value before pkg rest after ->
  expand_value lookup value =
    (package <- lookup pkg ;; Ok (path_join package rest)).
Proof.
  intros H. unfold expand_value. now rewrite (search_package _ _ _ _ _ H).
Qed.


Lemma expand_value_neither (value : string) :
  matches_neither value -> expand_value lookup value = Ok value.
Proof.
  intros [H1 H2]. unfold expand_value. now rewrite H1, H2.
Qed.

Lemma expand_filenames_dict (items : list (string * yaml)) :
  expand_filenames lookup (YDict items) =
  (YDict (fst (expand_items lookup (expand_filenames lookup) items)),
   snd (expand_items lookup (expand_filenames lookup) items)).
Proof.
  cbn [expand_filenames].
  now destruct (expand_items lookup (expand_filenames lookup) items).
Qed.

Lemma expand_filenames_other (v : yaml) :
  is_dict v = false -> expand_filenames lookup v = (v, None).
Proof. destruct v; try reflexivity. discriminate. Qed.

(** After a call that went through, every key of the mapping is bound to
    what the call stores for its value. *)
Lemma expand_items_get (items items' : list (string * yaml))
    (key : string) (v : yaml) :
  expand_items lookup (expand_filenames lookup) items = (items', None) ->
  dict_get key items = Some v ->
  exists v', dict_get key items' = Some v' /\ stored_for lookup v v'.
Proof.
  revert items'. induction items as [|[k x] items IH]; intros items' Hrun Hget.
  - discriminate.
  - cbn [expand_items] in Hrun. cbn [dict_get] in Hget.
    destruct (expand_items lookup (expand_filenames lookup) items)
      as [rest' raised'] eqn:Hrest.
    assert (Htail : raised' = None -> (k =? key)%string = false ->
                    exists v', dict_get key rest' = Some v' /\ stored_for lookup v v').
    { intros -> Hk. rewrite Hk in Hget. now apply IH. }
    destruct x; try (injection Hrun as <- ->; cbn [dict_get];
      destruct (k =? key)%string;
      [injection Hget as <-; eexists; split; reflexivity | now apply Htail]).
    + destruct (expand_value lookup s) as [s'|e] eqn:Hs; [|discriminate].
      injection Hrun as <- ->. cbn [dict_get].
      destruct (k =? key)%string; [|now apply Htail].
      injection Hget as <-. exists (YStr s'). split; [reflexivity|].
      now exists s'.
    + destruct (expand_filenames lookup (YDict items0)) as [x' raised] eqn:Hx.
      destruct raised; [discriminate|].
      injection Hrun as <- ->. cbn [dict_get].
      destruct (k =? key)%string; [|now apply Htail].
      injection Hget as <-. exists x'. split; [reflexivity | exact Hx].
Qed.

(** With or without an exception, every key of the mapping stays bound:
    to the same value, or to the expanded mapping, or the value is a
    string. *)
Lemma expand_items_frame (items : list (string * yaml)) (key : string)
    (v : yaml) :
  dict_get key items = Some v ->
  is_str v = false ->
  dict_get key (fst (expand_items lookup (expand_filenames lookup) items)) =
    Some v
  \/ (is_dict v = true /\
      dict_get key (fst (expand_items lookup (expand_filenames lookup) items)) =
        Some (fst (expand_filenames lookup v))).
Proof.
  induction items as [|[k x] items IH]; intros Hget Hstr; [discriminate|].
  cbn [dict_get] in Hget. cbn [expand_items].
  destruct (expand_items lookup (expand_filenames lookup) items)
    as [rest' raised'] eqn:Hrest. cbn [fst] in IH.
  assert (Htail : (k =? key)%string = false ->
            dict_get key rest' = Some v
            \/ (is_dict v = true /\
                dict_get key rest' = Some (fst (expand_filenames lookup v)))).
  { intros Hk. rewrite Hk in Hget. now apply IH. }
  destruct x; try (cbn [fst dict_get]; destruct (k =? key)%string;
    [left; exact Hget | now apply Htail]).
  - destruct (expand_value lookup s) as [s'|e].
    + cbn [fst dict_get]. destruct (k =? key)%string; [|now apply Htail].
      injection Hget as <-. discriminate Hstr.
    + cbn [fst dict_get]. destruct (k =? key)%string; [|left; exact Hget].
      left. exact Hget.
  - destruct (expand_filenames lookup (YDict items0)) as [x' raised] eqn:Hx.
    destruct raised.
    + cbn [fst dict_get]. destruct (k =? key)%string.
      * injection Hget as <-. right. split; [reflexivity|]. now rewrite Hx.
      * left. exact Hget.
    + cbn [fst dict_get]. destruct (k =? key)%string; [|now apply Htail].
      injection Hget as <-. right. split; [reflexivity|]. now rewrite Hx.
Qed.

End Expansion.

Lemma no_match_within_succ (r : regex) (s : string) (n : nat) :
  no_match_within r s (S n) =
  match re_match r s with
  | Some _ => false
  | None =>
      match s with
      | String _ s' => no_match_within r s' n
      | EmptyString => true
      end
  end.
Proof. reflexivity. Qed.

Lemma no_match_within_spec (r : regex) (before t : string) (n : nat) :
  no_match_within r (before ++ t) n = true ->
  String.length before < n ->
  re_match r t = None.
Proof.
  revert n. induction before as [|a before IH]; intros n H Hlt.
  - destruct n; [simpl in Hlt; lia|]. cbn [append] in H.
    rewrite no_match_within_succ in H.
    now destruct (re_match r t).
  - destruct n; [simpl in Hlt; lia|]. cbn [append] in H.
    rewrite no_match_within_succ in H.
    destruct (re_match r (String a (before ++ t))); [discriminate|].
    apply (IH n H). simpl in Hlt. lia.
Qed.

(** A way to check that a package URI is the first of a value *)
Lemma first_package_uri_check (value before pkg rest after : string) :
  package_uri_at value before pkg rest after ->
  ends_line after ->
  no_match_within pattern1 value (String.length before) = true ->
  first_package_uri value before pkg rest after.
Proof.
  intros Huri Hafter Hcheck. split; [exact Huri|]. split; [exact Hafter|].
  intros before' pkg' rest' after' (Hvalue & H').
  destruct (Nat.le_gt_cases (String.length before) (String.length before'))
    as [Hle|Hlt]; [exact Hle|].
  exfalso. rewrite Hvalue in Hcheck.
  apply (match_package_some ("package://" ++ pkg' ++ "/" ++ rest' ++ after')
           pkg' rest' after'); [split; [reflexivity | exact H']|].
  rewrite <- re_match_pattern1.
  exact (no_match_within_spec _ _ _ _ Hcheck Hlt).
Qed.


(** After a call that went through, the value at the end of a path through
    the mappings is what the call stores for it. *)
Lemma expand_value_at (lookup : string -> res string) (path : list string) :
  forall (parameters parameters' v : yaml),
    path <> [] ->
    expand_filenames lookup parameters = (parameters', None) ->
    value_at parameters path = Some v ->
    exists v', value_at parameters' path = Some v' /\ stored_for lookup v v'.
Proof.
  induction path as [|key path IH]; intros parameters parameters' v Hpath Hrun Hat;
    [congruence|].
  destruct parameters; try discriminate Hat.
  rewrite expand_filenames_dict in Hrun. injection Hrun as <- Hraised.
  cbn [value_at] in Hat |- *.
  destruct (dict_get key items) as [sub|] eqn:Hget; [|discriminate].
  destruct (expand_items_get lookup items _ key sub
              (eq_trans (surjective_pairing _) (f_equal (pair _) Hraised)) Hget)
    as (sub' & -> & Hstored).
  destruct path as [|key' path].
  - cbn [value_at] in Hat |- *. injection Hat as <-.
    exists sub'. split; [reflexivity | exact Hstored].
  - destruct sub; try discriminate Hat.
    apply (IH _ _ _ ltac:(discriminate) Hstored Hat).
Qed.

Lemma expand_items_app (lookup : string -> res string)
    (recurse : yaml -> yaml * option exception)
    (done done' rest : list (string * yaml)) :
  expand_items lookup recurse done = (done', None) ->
  expand_items lookup recurse (done ++ rest) =
    ((done' ++ fst (expand_items lookup recurse rest))%list,
     snd (expand_items lookup recurse rest)).
Proof.
  revert done'. induction done as [|[key v] done IH]; intros done' H.
  - injection H as <-. cbn [app]. now destruct (expand_items lookup recurse rest).
  - cbn [app expand_items] in *.
    destruct (expand_items lookup recurse done) as [d' r'] eqn:Hd.
    assert (Htail : r' = None ->
              expand_items lookup recurse (done ++ rest) =
                ((d' ++ fst (expand_items lookup recurse rest))%list,
                 snd (expand_items lookup recurse rest))).
    { intros ->. now apply IH. }
    destruct v;
      try (injection H as <- Hr; rewrite (Htail Hr); reflexivity).
    + destruct (expand_value lookup s) as [s'|e]; [|discriminate].
      injection H as <- Hr. now rewrite (Htail Hr).
    + destruct (recurse (YDict items)) as [v' raised].
      destruct raised; [discriminate|].
      injection H as <- Hr. now rewrite (Htail Hr).
Qed.







(** A value that is neither a string nor a mapping stays where it is, with
    or without an exception. *)
Lemma expand_keeps_other_values (lookup : string -> res string)
    (path : list string) :
  forall (parameters v : yaml),
    value_at parameters path = Some v ->
    is_str v = false -> is_dict v = false ->
    value_at (fst (expand_filenames lookup parameters)) path = Some v.
Proof.
  induction path as [|key path IH]; intros parameters v Hat Hstr Hdict.
  - injection Hat as ->. now rewrite expand_filenames_other.
  - destruct parameters; try discriminate Hat.
    rewrite expand_filenames_dict. cbn [fst value_at] in Hat |- *.
    destruct (dict_get key items) as [sub|] eqn:Hget; [|discriminate].
    destruct (is_str sub) eqn:Hsub.
    { destruct sub; try discriminate Hsub.
      destruct path; [injection Hat as <-|]; discriminate. }
    destruct (expand_items_frame lookup items key sub Hget Hsub)
      as [-> | [_ ->]]; [exact Hat | now apply IH].
Qed.

Lemma expand_items_others (lookup : string -> res string)
    (recurse : yaml -> yaml * option exception) (items : list (string * yaml)) :
  Forall (fun item => is_str (snd item) = false /\ is_dict (snd item) = false)
    items ->
  expand_items lookup recurse items = (items, None).
Proof.
  induction 1 as [|[key v] items [Hstr Hdict] _ IH]; [reflexivity|].
  cbn [expand_items]. rewrite IH.
  destruct v; try reflexivity; discriminate.
Qed.

(** C7.  The path expander leaves every value that is neither a string nor a
    mapping (null, a number, a boolean, a list) where it is and as it is, at
    any depth of the mappings, whether the call goes through or raises; a
    list is not gone into, its elements stay as they are.  A mapping with
    such values only is left unchanged and nothing is raised. *)
Theorem other_values_untouched (lookup : string -> res string) :
  (forall (parameters v : yaml) (path : list string),
     value_at parameters path = Some v ->
     is_str v = false -> is_dict v = false ->
     value_at (fst (expand_filenames lookup parameters)) path = Some v)
  /\ (forall items : list (string * yaml),
        Forall (fun item => is_str (snd item) = false /\ is_dict (snd item) = false)
          items ->
        expand_filenames lookup (YDict items) = (YDict items, None)).
Proof.
  split.
  - intros parameters v path. apply expand_keeps_other_values.
  - intros items H. rewrite expand_filenames_dict.
    now rewrite expand_items_others.
Qed.

Lemma other_values_untouched_witness :
  expand_filenames lookup_foo (YDict [("p", YList [YStr "package://foo/bar"])]) =
    (YDict [("p", YList [YStr "package://foo/bar"])], None)
  /\ value_at
       (fst (expand_filenames lookup_foo
          (YDict [("a", YStr "package://none/x");
                  ("b", YDict [("p", YList [YStr "file:///etc/x.yaml"])])])))
       ["b"; "p"] =
     Some (YList [YStr "file:///etc/x.yaml"]).
Proof.
  split.
  - apply (proj2 (other_values_untouched lookup_foo)).
    repeat constructor.
  - apply (proj1 (other_values_untouched lookup_foo)); reflexivity.
Defined.

(** Induction on the values under a mapping, through the nested mappings *)
Lemma yaml_mapping_ind (P : yaml -> Prop) :
  (forall v, is_dict v = false -> P v) ->
  (forall items, Forall (fun item => P (snd item)) items -> P (YDict items)) ->
  forall v, P v.
Proof.
  intros Hother Hdict. fix IH 1. intros v.
  destruct v as [ | b | n | m e | s | l | items];
    try (apply Hother; reflexivity).
  apply Hdict. induction items as [|[key x] items IHitems].
  - constructor.
  - constructor; [exact (IH x) | exact IHitems].
Qed.

Lemma every_string_cons (P : string -> Prop) (key : string) (x : yaml)
    (items : list (string * yaml)) :
  every_string P (YDict ((key, x) :: items)) <->
  match x with
  | YStr s => P s
  | YDict _ => every_string P x
  | _ => True
  end /\ every_string P (YDict items).
Proof. reflexivity. Qed.

(** Where every string matches neither pattern, the call stores what is
    there already and raises nothing. *)
Lemma expand_unchanged (lookup : string -> res string) (parameters : yaml) :
  every_string matches_neither parameters ->
  expand_filenames lookup parameters = (parameters, None).
Proof.
  induction parameters as [v Hv | items IH] using yaml_mapping_ind.
  - intros _. now apply expand_filenames_other.
  - intros Hevery. rewrite expand_filenames_dict.
    enough (H : expand_items lookup (expand_filenames lookup) items = (items, None))
      by now rewrite H.
    revert Hevery.
    induction IH as [|item items Hx HF IHitems]; intros Hevery; [reflexivity|].
    destruct item as [key x].
    apply (proj1 (every_string_cons _ _ _ _)) in Hevery.
    destruct Hevery as [Hhere Hevery].
    cbn [expand_items]. rewrite (IHitems Hevery). cbn [snd] in Hx.
    destruct x; try reflexivity.
    + now rewrite (expand_value_neither lookup s Hhere).
    + now rewrite (Hx Hhere).
Qed.

(** C9.  On parameters all of whose string values, at any depth of the
    mappings, match neither pattern, the path expander changes nothing and
    raises nothing; so a second call gives what the first one gave. *)
Theorem expand_idempotent (lookup : string -> res string) (parameters : yaml) :
  every_string matches_neither parameters ->
  expand_filenames lookup parameters = (parameters, None)
  /\ expand_filenames lookup (fst (expand_filenames lookup parameters)) =
     expand_filenames lookup parameters.
Proof.
  intros H. pose proof (expand_unchanged lookup parameters H) as Hsame.
  split; [exact Hsame|]. now rewrite Hsame.
Qed.

Lemma expand_idempotent_witness :
  let parameters :=
    YDict [("frame", YStr "base_link");
           ("files", YList [YStr "file:///etc/x.yaml"]);
           ("driver", YDict [("port", YStr "/dev/ttyUSB0"); ("rate", YInt 50)])] in
  expand_filenames lookup_foo parameters = (parameters, None)
  /\ expand_filenames lookup_foo (fst (expand_filenames lookup_foo parameters)) =
     expand_filenames lookup_foo parameters.
Proof.
  apply (expand_idempotent lookup_foo).
  simpl. unfold matches_neither. repeat split; reflexivity.
Defined.

(** For a string, matching neither pattern is having neither URI in it. *)
Lemma matches_neither_iff (value : string) :
  matches_neither value <-> no_package_uri value /\ no_file_uri value.
Proof.
  unfold matches_neither.
  now rewrite search_package_none, search_file_none.
Qed.




(** ** The examples of the specification *)

Example topics_example :
  get_remappings (YDict [("topics", YList [YStr "a:b"])]) = Ok [("a", "b")].
Proof. reflexivity. Qed.

Example extra_colon_example :
  get_remappings (YDict [("topics", YList [YStr "a:b:c"])]) =
  Err (ValueError (InvalidFormatIn "topics" "a:b:c")).
Proof. reflexivity. Qed.

Example empty_from_example :
  get_remappings (YDict [("topics", YList [YStr ":b"])]) =
  Err (ValueError (EmptyFieldIn "topics" ":b")).
Proof. reflexivity. Qed.

Example combined_scenario :
  let ros_parameters :=
    YDict [("ros_execution",
            YDict [("node_package", YStr "arm_pkg");
                   ("node_executable", YStr "arm_node_exe")]);
           ("ros_remappings", YDict [("topics", YList [YStr "js:joint_states"])])] in
  let node_config := YDict [("arm_node", YDict [("ros__parameters", ros_parameters)])] in
  get_node_config_and_ns (YDict [("robot", YDict [("arm", node_config)])]) "" =
    Ok (node_config, "robot/arm")
  /\ (remappings <- match value_at node_config
                            ["arm_node"; "ros__parameters"; "ros_remappings"] with
                    | Some ros_remappings => get_remappings ros_remappings
                    | None => Ok []
                    end ;;
      Ok remappings) = Ok [("js", "joint_states")]
  /\ expand_filenames lookup_foo ros_parameters = (ros_parameters, None).
Proof. repeat split. Qed.

Example package_example (lookup : string -> res string) :
  lookup "foo" = Ok "/opt/foo" ->
  expand_filenames lookup (YDict [("p", YStr "package://foo/bar/baz.txt")]) =
  (YDict [("p", YStr "/opt/foo/bar/baz.txt")], None).
Proof.
  intros Hfoo.
  assert (E : expand_value lookup "package://foo/bar/baz.txt" =
              Ok "/opt/foo/bar/baz.txt").
  { unfold expand_value.
    replace (re_search pattern1 "package://foo/bar/baz.txt")
      with (Some ["foo"; "bar/baz.txt"]) by (vm_compute; reflexivity).
    cbn [group nth Nat.sub]. now rewrite Hfoo. }
  cbn [expand_filenames expand_items]. now rewrite E.
Qed.

Example file_example (lookup : string -> res string) :
  expand_filenames lookup (YDict [("p", YStr "file:///etc/x.yaml")]) =
  (YDict [("p", YStr "/etc/x.yaml")], None).
Proof.
  assert (E : expand_value lookup "file:///etc/x.yaml" = Ok "/etc/x.yaml").
  { unfold expand_value.
    replace (re_search pattern1 "file:///etc/x.yaml")
      with (@None groups) by (vm_compute; reflexivity).
    replace (re_search pattern2 "file:///etc/x.yaml")
      with (Some ["/etc/x.yaml"]) by (vm_compute; reflexivity).
    reflexivity. }
  cbn [expand_filenames expand_items]. now rewrite E.
Qed.

(** * More properties of the code *)

(** ** The namespace resolver *)

(** What a returned result tells about the document *)
Lemma resolver_inv (yaml_config : yaml) :
  forall namespace config found,
    get_node_config_and_ns yaml_config namespace = Ok (config, found) ->
    exists keys node_name node_items params,
      config = YDict [(node_name, YDict node_items)]
      /\ dict_get marker node_items = Some (YDict params)
      /\ yaml_config = nest keys config
      /\ marker_free_above keys config
      /\ found = accumulate namespace keys.
Proof.
  induction yaml_config as [v Hv | items IH] using yaml_mapping_ind;
    intros namespace config found H.
  - destruct v; try discriminate H. discriminate Hv.
  - destruct items as [|[key inner] [|item items]]; try discriminate H.
    apply Forall_inv in IH. cbn [snd] in IH. cbn [get_node_config_and_ns] in H.
    destruct inner; try discriminate H.
    destruct (dict_get "ros__parameters" items) as [parameters|] eqn:Hget.
    + destruct parameters; try discriminate H. cbn [is_dict] in H.
      injection H as <- <-.
      exists [], key, items, items0. repeat split; try reflexivity. exact Hget.
    + destruct (IH _ _ _ H)
        as (keys & node_name & node_items & params & -> & Hparams & Hnest & Hfree & ->).
      exists (key :: keys), node_name, node_items, params.
      split; [reflexivity|]. split; [exact Hparams|].
      split; [cbn [nest]; now rewrite <- Hnest|].
      split; [|reflexivity].
      split; [|exact Hfree]. rewrite <- Hnest.
      unfold has_marker, dict_mem, marker. now rewrite Hget.
Qed.

(** X1.  Whenever the resolver returns, what it returns is a mapping with
    one key bound to a mapping in which [ros__parameters] is bound to a
    mapping; it is the part of the document found under a chain of single
    keys, none of them with the marker in its value, and the namespace is
    the one given, with these keys accumulated. *)
Theorem resolver_returns_node (yaml_config config : yaml) (namespace found : string) :
  get_node_config_and_ns yaml_config namespace = Ok (config, found) ->
  exists keys node_name node_items params,
    config = YDict [(node_name, YDict node_items)]
    /\ dict_get marker node_items = Some (YDict params)
    /\ yaml_config = nest keys config
    /\ marker_free_above keys config
    /\ found = accumulate namespace keys.
Proof. apply resolver_inv. Qed.

Lemma resolver_returns_node_witness :
  exists keys node_name node_items params,
    YDict [("n", YDict [("ros__parameters", YDict [])])] =
      YDict [(node_name, YDict node_items)]
    /\ dict_get marker node_items = Some (YDict params)
    /\ YDict [("a", YDict [("n", YDict [("ros__parameters", YDict [])])])] =
         nest keys (YDict [("n", YDict [("ros__parameters", YDict [])])])
    /\ marker_free_above keys (YDict [("n", YDict [("ros__parameters", YDict [])])])
    /\ "ns/a" = accumulate "ns" keys.
Proof.
  apply (resolver_returns_node
           (YDict [("a", YDict [("n", YDict [("ros__parameters", YDict [])])])])
           (YDict [("n", YDict [("ros__parameters", YDict [])])]) "ns" "ns/a").
  reflexivity.
Defined.

(** X2.  Started with a namespace that is not empty, the resolver returns
    it with every key of the chain appended, each after a "/": no key is
    left out, empty or not. *)
Theorem resolver_extends_namespace
    (keys : list string) (node_name : string)
    (node_items params : list (string * yaml)) (a : ascii) (namespace : string) :
  dict_get marker node_items = Some (YDict params) ->
  marker_free_above keys (YDict [(node_name, YDict node_items)]) ->
  get_node_config_and_ns (nest keys (YDict [(node_name, YDict node_items)]))
    (String a namespace) =
  Ok (YDict [(node_name, YDict node_items)],
      String a namespace ++ separated keys).
Proof.
  intros Hparams Hfree.
  rewrite resolver_descends by exact Hfree.
  simpl. unfold marker in Hparams. rewrite Hparams. simpl.
  now rewrite accumulate_nonempty.
Qed.

Lemma resolver_extends_namespace_witness :
  get_node_config_and_ns
    (YDict [("", YDict [("arm", YDict [("n", YDict [("ros__parameters", YDict [])])])])])
    "robot" =
  Ok (YDict [("n", YDict [("ros__parameters", YDict [])])], "robot//arm").
Proof.
  apply (resolver_extends_namespace [""; "arm"] "n"
           [("ros__parameters", YDict [])] [] "r" "obot").
  - reflexivity.
  - simpl. split; [reflexivity|]. split; [reflexivity | exact I].
Defined.

(** X3.  A chain of single keys that ends in a key bound to something that
    is not a mapping (a number, a string, a list, null): the resolver fails
    with the error that names this key and the type of its value. *)
Theorem resolver_rejects_leaf (keys : list string) (key : string) (v : yaml)
    (namespace : string) :
  marker_free_above keys (YDict [(key, v)]) ->
  is_dict v = false ->
  get_node_config_and_ns (nest keys (YDict [(key, v)])) namespace =
    Err (ValueError (ExpectedDictUnder key (type_name v))).
Proof.
  intros Hfree Hv. rewrite resolver_descends by exact Hfree.
  destruct v; try reflexivity. discriminate Hv.
Qed.

Lemma resolver_rejects_leaf_witness :
  get_node_config_and_ns (YDict [("robot", YDict [("rate", YInt 10)])]) "" =
  Err (ValueError (ExpectedDictUnder "rate" "int")).
Proof.
  apply (resolver_rejects_leaf ["robot"] "rate" (YInt 10) "").
  - simpl. split; [reflexivity | exact I].
  - reflexivity.
Defined.

(** X4.  A chain of single keys that ends in a node whose [ros__parameters]
    is not a mapping (null for an empty block, a list, a scalar): the
    resolver fails with the error that names the node, whatever else the
    node holds. *)
Theorem resolver_rejects_parameters (keys : list string) (node_name : string)
    (node_items : list (string * yaml)) (parameters : yaml) (namespace : string) :
  marker_free_above keys (YDict [(node_name, YDict node_items)]) ->
  dict_get marker node_items = Some parameters ->
  is_dict parameters = false ->
  get_node_config_and_ns (nest keys (YDict [(node_name, YDict node_items)]))
    namespace =
  Err (ValueError (ParametersMustBeDict node_name)).
Proof.
  intros Hfree Hget Hp. rewrite resolver_descends by exact Hfree.
  cbn [get_node_config_and_ns]. unfold marker in Hget. rewrite Hget.
  now rewrite Hp.
Qed.

Lemma resolver_rejects_parameters_witness :
  get_node_config_and_ns
    (YDict [("robot", YDict [("arm_node", YDict [("ros__parameters", YNone)])])]) "" =
  Err (ValueError (ParametersMustBeDict "arm_node")).
Proof.
  apply (resolver_rejects_parameters ["robot"] "arm_node"
           [("ros__parameters", YNone)] YNone "").
  - simpl. split; [reflexivity | exact I].
  - reflexivity.
  - reflexivity.
Defined.

(** X5.  A chain of single keys that ends in an empty mapping: the resolver
    fails with the error for a level with 0 keys and an empty key list. *)
Theorem resolver_rejects_empty_mapping (keys : list string) (namespace : string) :
  marker_free_above keys (YDict []) ->
  get_node_config_and_ns (nest keys (YDict [])) namespace =
    Err (ValueError (ExpectedOneKey 0 [])).
Proof.
  intros Hfree. now rewrite resolver_descends by exact Hfree.
Qed.

Lemma resolver_rejects_empty_mapping_witness :
  get_node_config_and_ns (YDict [("robot", YDict [("arm", YDict [])])]) "" =
  Err (ValueError (ExpectedOneKey 0 [])).
Proof.
  apply (resolver_rejects_empty_mapping ["robot"; "arm"] "").
  simpl. repeat split.
Defined.

(** ** The path expander *)

Lemma expand_items_same_kind (lookup : string -> res string)
    (items : list (string * yaml)) :
  Forall2 same_kind items
    (fst (expand_items lookup (expand_filenames lookup) items)).
Proof.
  assert (Hrefl : forall l : list (string * yaml), Forall2 same_kind l l).
  { induction l; constructor; [now split | assumption]. }
  induction items as [|[key v] items IH]; [constructor|].
  cbn [expand_items].
  destruct (expand_items lookup (expand_filenames lookup) items) as [rest' raised'].
  cbn [fst] in IH.
  destruct v; try (constructor; [now split | exact IH]).
  - destruct (expand_value lookup s) as [s'|e].
    + constructor; [now split | exact IH].
    + apply Hrefl.
  - rewrite expand_filenames_dict.
    destruct (snd (expand_items lookup (expand_filenames lookup) items0)).
    + constructor; [now split | apply Hrefl].
    + constructor; [now split | exact IH].
Qed.

(** X6.  The path expander never adds, removes, renames or reorders a key
    and never changes the type of a value, whether it returns or raises:
    after the call the mapping has the same keys in the same order, bound
    to values of the same types. *)
Theorem expand_keeps_shape (lookup : string -> res string)
    (items : list (string * yaml)) :
  exists items',
    fst (expand_filenames lookup (YDict items)) = YDict items'
    /\ Forall2 same_kind items items'
    /\ dict_keys items' = dict_keys items.
Proof.
  exists (fst (expand_items lookup (expand_filenames lookup) items)).
  rewrite expand_filenames_dict. split; [reflexivity|].
  pose proof (expand_items_same_kind lookup items) as H.
  split; [exact H|]. unfold dict_keys.
  induction H as [|a b l l' [Hk _] _ IH]; [reflexivity|].
  cbn [map]. now rewrite IH, Hk.
Qed.

Lemma expand_value_raises (lookup : string -> res string) (value : string)
    (e : exception) :
  expand_value lookup value = Err e -> exists pkg, lookup pkg = Err e.
Proof.
  unfold expand_value.
  destruct (re_search pattern1 value) as [m|].
  - destruct (lookup (group m 1)) as [dir|e'] eqn:Hl; [discriminate|].
    intros [= <-]. now exists (group m 1).
  - now destruct (re_search pattern2 value).
Qed.

Lemma expand_raises (lookup : string -> res string) (parameters : yaml)
    (e : exception) :
  snd (expand_filenames lookup parameters) = Some e ->
  exists pkg, lookup pkg = Err e.
Proof.
  induction parameters as [v Hv | items IH] using yaml_mapping_ind.
  - now rewrite expand_filenames_other.
  - rewrite expand_filenames_dict. cbn [snd].
    induction IH as [|[key x] items Hx _ IHitems]; [discriminate|].
    cbn [expand_items snd] in *.
    destruct (expand_items lookup (expand_filenames lookup) items)
      as [rest' raised'].
    cbn [snd] in IHitems.
    destruct x; try exact IHitems.
    + destruct (expand_value lookup s) as [s'|e'] eqn:Hs; [exact IHitems|].
      intros [= <-]. now apply (expand_value_raises lookup s).
    + destruct (expand_filenames lookup (YDict items0)) as [x' raised] eqn:Hx'.
      cbn [snd] in Hx. destruct raised; [|exact IHitems].
      intros [= <-]. now apply Hx.
Qed.

(** X7.  An exception that comes out of the path expander is one that the
    package index has raised for some package; with a package index that
    answers for every package the path expander cannot fail. *)
Theorem expand_raises_from_lookup (lookup : string -> res string)
    (parameters : yaml) (e : exception) :
  snd (expand_filenames lookup parameters) = Some e ->
  exists pkg, lookup pkg = Err e.
Proof. apply expand_raises. Qed.

Lemma expand_raises_from_lookup_witness :
  exists pkg, lookup_foo pkg = Err (PackageNotFoundError "bar").
Proof.
  apply (expand_raises_from_lookup lookup_foo
           (YDict [("a", YDict [("b", YStr "see package://bar/x")])])).
  reflexivity.
Defined.

(** X8.  When the package index fails for a value, the call stops there with
    that exception: the entries before it stay expanded, the value itself
    and everything after it stay as they were. *)
Theorem expand_stops_at_failure (lookup : string -> res string)
    (done done' rest : list (string * yaml)) (param_id value : string)
    (e : exception) :
  expand_filenames lookup (YDict done) = (YDict done', None) ->
  expand_value lookup value = Err e ->
  expand_filenames lookup (YDict (done ++ (param_id, YStr value) :: rest)) =
    (YDict (done' ++ (param_id, YStr value) :: rest), Some e).
Proof.
  intros Hdone Hvalue. rewrite expand_filenames_dict in Hdone.
  injection Hdone as Hd Hr. rewrite expand_filenames_dict.
  rewrite (expand_items_app lookup _ done done').
  - cbn [expand_items]. now rewrite Hvalue.
  - rewrite <- Hd, <- Hr. apply surjective_pairing.
Qed.

Lemma expand_stops_at_failure_witness :
  expand_filenames lookup_foo
    (YDict [("a", YStr "file:///etc/x"); ("b", YStr "package://bar/y");
            ("c", YStr "package://foo/z")]) =
  (YDict [("a", YStr "/etc/x"); ("b", YStr "package://bar/y");
          ("c", YStr "package://foo/z")],
   Some (PackageNotFoundError "bar")).
Proof.
  apply (expand_stops_at_failure lookup_foo
           [("a", YStr "file:///etc/x")] [("a", YStr "/etc/x")]
           [("c", YStr "package://foo/z")] "b" "package://bar/y").
  - reflexivity.
  - reflexivity.
Defined.

(** X9.  When the text after the package name starts with a second "/", the
    stored value is that text alone: as [os.path.join] does for an absolute
    second component, the share directory of the package is dropped, though
    the package is looked up all the same. *)
Theorem package_uri_with_absolute_rest (lookup : string -> res string)
    (value before pkg rest after package : string) :
  first_package_uri value before pkg ("/" ++ rest) after ->
  lookup pkg = Ok package ->
  expand_value lookup value = Ok ("/" ++ rest).
Proof.
  intros Huri Hpkg.
  rewrite (expand_value_package lookup _ _ _ _ _ Huri), Hpkg. reflexivity.
Qed.

Lemma package_uri_with_absolute_rest_witness :
  expand_value lookup_foo "package://foo//etc/passwd" = Ok ("/" ++ "etc/passwd").
Proof.
  apply (package_uri_with_absolute_rest lookup_foo
           "package://foo//etc/passwd" "" "foo" "etc/passwd" "" "/opt/foo").
  - apply first_package_uri_check; [|exact I | reflexivity].
    split; [reflexivity|]. simpl. repeat split; discriminate.
  - reflexivity.
Defined.

Lemma every_string_weaken (P Q : string -> Prop) (v : yaml) :
  (forall s, P s -> Q s) -> every_string P v -> every_string Q v.
Proof.
  intros HPQ. induction v as [v Hv | items IH] using yaml_mapping_ind.
  - destruct v; try (intros; exact I). discriminate Hv.
  - induction IH as [|[key x] items Hx _ IHitems]; [trivial|].
    intros H. apply (proj1 (every_string_cons _ _ _ _)) in H.
    apply (proj2 (every_string_cons _ _ _ _)).
    destruct H as [Hhere Hrest]. split; [|now apply IHitems].
    cbn [snd] in Hx. destruct x; try exact I; [now apply HPQ | now apply Hx].
Qed.

Lemma no_scheme_matches_neither (value : string) :
  ~ occurs_in "://" value -> matches_neither value.
Proof.
  intros Hno. apply matches_neither_iff. split.
  - intros before pkg rest after (Hvalue & _). apply Hno.
    exists (before ++ "package"), (pkg ++ "/" ++ rest ++ after).
    rewrite Hvalue. now rewrite append_assoc.
  - intros before rest after (Hvalue & _). apply Hno.
    exists (before ++ "file"), ("/" ++ rest ++ after).
    rewrite Hvalue. now rewrite append_assoc.
Qed.

(** X10.  Parameters in which no string value, at any depth of the mappings,
    contains "://" come out of the path expander unchanged, and no package
    is looked up: the call cannot fail, whatever the package index. *)
Theorem expand_without_scheme (lookup : string -> res string) (parameters : yaml) :
  every_string (fun value => ~ occurs_in "://" value) parameters ->
  expand_filenames lookup parameters = (parameters, None).
Proof.
  intros H. apply expand_unchanged.
  exact (every_string_weaken _ _ _ no_scheme_matches_neither H).
Qed.

Lemma occurs_in_check (part s : string) :
  occurs_in part s -> has_substring part s = true.
Proof.
  intros (before & after & ->).
  induction before as [|a before IH].
  - cbn [append]. destruct (part ++ after) eqn:E; cbn [has_substring];
      rewrite <- E, skip_literal_append; reflexivity.
  - cbn [append has_substring].
    now destruct (skip_literal part (String a (before ++ part ++ after))).
Qed.

Lemma expand_without_scheme_witness :
  expand_filenames lookup_foo
    (YDict [("frame", YStr "base_link");
            ("driver", YDict [("port", YStr "/dev/ttyUSB0"); ("rate", YInt 50)])]) =
  (YDict [("frame", YStr "base_link");
          ("driver", YDict [("port", YStr "/dev/ttyUSB0"); ("rate", YInt 50)])],
   None).
Proof.
  apply (expand_without_scheme lookup_foo).
  simpl. repeat split;
    intros H; apply occurs_in_check in H; discriminate H.
Defined.

(** X11.  The expansion is local: after a call that returns, a mapping
    nested at any depth is what a call on it alone gives, and that call
    returns too. *)
Theorem expand_is_local (lookup : string -> res string)
    (parameters parameters' : yaml) (path : list string)
    (sub : list (string * yaml)) :
  expand_filenames lookup parameters = (parameters', None) ->
  value_at parameters path = Some (YDict sub) ->
  expand_filenames lookup (YDict sub) =
    (fst (expand_filenames lookup (YDict sub)), None)
  /\ value_at parameters' path = Some (fst (expand_filenames lookup (YDict sub))).
Proof.
  intros Hrun Hat. destruct path as [|key path].
  - injection Hat as ->. rewrite Hrun. now split.
  - destruct (expand_value_at lookup (key :: path) _ _ _
                ltac:(discriminate) Hrun Hat) as (v' & Hat' & Hstored).
    cbn [stored_for] in Hstored. rewrite Hstored. now split.
Qed.

Lemma expand_is_local_witness :
  expand_filenames lookup_foo (YDict [("p", YStr "package://foo/x")]) =
    (fst (expand_filenames lookup_foo (YDict [("p", YStr "package://foo/x")])), None)
  /\ value_at
       (YDict [("a", YDict [("b", YDict [("p", YStr "/opt/foo/x")])]); ("c", YNone)])
       ["a"; "b"] =
     Some (fst (expand_filenames lookup_foo (YDict [("p", YStr "package://foo/x")]))).
Proof.
  apply (expand_is_local lookup_foo
           (YDict [("a", YDict [("b", YDict [("p", YStr "package://foo/x")])]);
                   ("c", YNone)])
           (YDict [("a", YDict [("b", YDict [("p", YStr "/opt/foo/x")])]);
                   ("c", YNone)])
           ["a"; "b"] [("p", YStr "package://foo/x")]).
  - reflexivity.
  - reflexivity.
Defined.

(** ** The remapping expander *)

Lemma rstrip_idempotent (s : string) : rstrip (rstrip s) = rstrip s.
Proof.
  induction s as [|c s IH]; [reflexivity|].
  cbn [rstrip]. destruct (rstrip s) as [|b kept] eqn:E.
  - destruct (isspace c) eqn:Ec; [reflexivity|].
    cbn [rstrip]. now rewrite Ec.
  - cbn [rstrip]. cbn [rstrip] in IH. now rewrite IH.
Qed.

Lemma lstrip_unspaced (s : string) :
  match s with String a _ => isspace a = false | EmptyString => True end ->
  lstrip s = s.
Proof. destruct s as [|a s]; [reflexivity|]. intros H. cbn [lstrip]. now rewrite H. Qed.

Lemma strip_idempotent (s : string) : strip (strip s) = strip s.
Proof.
  unfold strip at 1. rewrite (lstrip_unspaced (strip s) (strip_first s)).
  unfold strip. apply rstrip_idempotent.
Qed.

Lemma free_of_lstrip (c : ascii) (s : string) : free_of c s -> free_of c (lstrip s).
Proof.
  induction s as [|a s IH]; [trivial|]. intros [Ha Hs]. cbn [lstrip].
  destruct (isspace a); [now apply IH | now split].
Qed.

Lemma free_of_rstrip (c : ascii) (s : string) : free_of c s -> free_of c (rstrip s).
Proof.
  induction s as [|a s IH]; [trivial|]. intros [Ha Hs]. cbn [rstrip].
  specialize (IH Hs). destruct (rstrip s).
  - destruct (isspace a); [exact I | now split].
  - now split.
Qed.

Lemma free_of_strip (c : ascii) (s : string) : free_of c s -> free_of c (strip s).
Proof. intros H. now apply free_of_rstrip, free_of_lstrip. Qed.

Lemma free_of_append (c : ascii) (s t : string) :
  free_of c s -> free_of c t -> free_of c (s ++ t).
Proof.
  induction s as [|a s IH]; [trivial|]. intros [Ha Hs] Ht. split; [exact Ha|].
  now apply IH.
Qed.

Lemma rstrip_append (s t : string) :
  rstrip t <> "" -> rstrip (s ++ t) = s ++ rstrip t.
Proof.
  intros Ht. induction s as [|a s IH]; [reflexivity|].
  cbn [append rstrip]. rewrite IH.
  destruct (s ++ rstrip t) eqn:E; [|reflexivity].
  destruct s; [cbn [append] in E; congruence | discriminate E].
Qed.

(** A trimmed name stays trimmed with a suffix of an action after it. *)
Lemma strip_with_suffix (s suffix : string) :
  s <> "" -> strip s = s -> suffix <> "" -> rstrip suffix = suffix ->
  strip (s ++ suffix) = s ++ suffix.
Proof.
  intros Hs Hstrip Hne Hsuffix. unfold strip.
  rewrite lstrip_unspaced.
  - rewrite rstrip_append; now rewrite Hsuffix.
  - pose proof (strip_first s) as H. rewrite Hstrip in H.
    destruct s; [congruence | exact H].
Qed.

Lemma parses_to_clean (item : yaml) (pair : remapping) :
  parses_to item pair -> clean pair.
Proof.
  intros [a b (Ha & Hb & Hfrom & Hto)]. unfold clean. cbn [fst snd].
  repeat split; try assumption;
    try (now apply free_of_strip); apply strip_idempotent.
Qed.

Lemma fan_out_clean (a b : string) :
  valid_sides a b -> Forall clean (fan_out (strip a) (strip b)).
Proof.
  intros (Ha & Hb & Hfrom & Hto).
  assert (Hside : forall s suffix,
            free_of ":" s -> strip s <> "" ->
            suffix <> "" -> free_of ":" suffix -> rstrip suffix = suffix ->
            strip s ++ suffix <> "" /\ free_of ":" (strip s ++ suffix)
            /\ strip (strip s ++ suffix) = strip s ++ suffix).
  { intros s suffix Hs Hne Hsuf Hfree Hr. split; [|split].
    - destruct (strip s); [congruence | discriminate].
    - apply free_of_append; [now apply free_of_strip | exact Hfree].
    - apply strip_with_suffix; try assumption. apply strip_idempotent. }
  unfold fan_out.
  repeat constructor; cbn [fst snd];
    try (apply Hside; try assumption; try discriminate;
         try reflexivity; simpl; repeat split; discriminate).
Qed.

Lemma parse_section_gives (ros_remappings : list (string * yaml))
    (section_name : string) (pairs : list remapping) :
  parse_section ros_remappings section_name = Ok pairs <->
  section_gives ros_remappings section_name pairs.
Proof.
  unfold parse_section, section_gives.
  destruct (dict_get section_name ros_remappings) as [section|].
  - destruct section; try (split; [discriminate | contradiction]).
    + split; [now intros [= <-] | now intros ->].
    + split.
      * intros H. destruct (parse_items_inv _ _ _ _ H) as (found & Hfound & ->).
        exact Hfound.
      * intros H. rewrite <- (app_nil_r l).
        now rewrite (parse_items_valid section_name l pairs H).
  - split; [now intros [= <-] | now intros ->].
Qed.

Lemma actions_section_gives (ros_remappings : list (string * yaml))
    (pairs : list remapping) :
  match dict_get "actions" ros_remappings with
  | Some actions => get_remappings_for_actions actions
  | None => Ok []
  end = Ok pairs <->
  actions_give ros_remappings pairs.
Proof.
  unfold actions_give, get_remappings_for_actions.
  destruct (dict_get "actions" ros_remappings) as [actions|].
  - destruct actions; try (split; [discriminate | contradiction]).
    + split; [now intros [= <-] | now intros ->].
    + split.
      * intros H. destruct (expand_actions_inv _ _ _ H) as (entries & -> & He).
        exists entries. split; [reflexivity|]. split; [exact He|].
        rewrite (expand_actions_valid entries He []) in H.
        now injection H as <-.
      * intros (entries & -> & He & ->).
        now rewrite (expand_actions_valid entries He []).
  - split; [now intros [= <-] | now intros ->].
Qed.

Lemma get_remappings_gives (ros_remappings : list (string * yaml))
    (pairs : list remapping) :
  get_remappings (YDict ros_remappings) = Ok pairs <->
  exists topics services actions,
    section_gives ros_remappings "topics" topics
    /\ section_gives ros_remappings "services" services
    /\ actions_give ros_remappings actions
    /\ pairs = (topics ++ services ++ actions)%list.
Proof.
  cbn [get_remappings]. split.
  - destruct (parse_section ros_remappings "topics") as [topics|e] eqn:Ht;
      [|discriminate].
    destruct (parse_section ros_remappings "services") as [services|e] eqn:Hs;
      [|discriminate].
    cbn [bind]. intros H.
    apply parse_section_gives in Ht, Hs.
    assert (Ha : exists actions,
               match dict_get "actions" ros_remappings with
               | Some a => get_remappings_for_actions a
               | None => Ok []
               end = Ok actions
               /\ pairs = (topics ++ services ++ actions)%list).
    { destruct (dict_get "actions" ros_remappings) as [a|].
      - destruct (get_remappings_for_actions a) as [actions|e]; [|discriminate].
        cbn [bind] in H. injection H as <-. exists actions.
        now rewrite app_assoc.
      - injection H as <-. exists []. now rewrite !app_nil_r. }
    destruct Ha as (actions & Ha & ->).
    apply actions_section_gives in Ha. now exists topics, services, actions.
  - intros (topics & services & actions & Ht & Hs & Ha & ->).
    apply parse_section_gives in Ht, Hs. apply actions_section_gives in Ha.
    rewrite Ht, Hs. cbn [bind].
    destruct (dict_get "actions" ros_remappings) as [a|].
    + rewrite Ha. cbn [bind]. now rewrite app_assoc.
    + injection Ha as <-. now rewrite !app_nil_r.
Qed.

(** X12.  [get_remappings] returns exactly when each section that is there
    is a list of valid entries, and what it returns is the remappings of
    the topics, then those of the services, then the five remappings of
    each action, whatever the order of the sections in the document. *)
Theorem remappings_in_section_order (ros_remappings : list (string * yaml))
    (pairs : list remapping) :
  get_remappings (YDict ros_remappings) = Ok pairs <->
  exists topics services actions,
    section_gives ros_remappings "topics" topics
    /\ section_gives ros_remappings "services" services
    /\ actions_give ros_remappings actions
    /\ pairs = (topics ++ services ++ actions)%list.
Proof. apply get_remappings_gives. Qed.

Lemma remappings_in_section_order_witness :
  get_remappings
    (YDict [("actions", YList [YStr "g:h"]); ("services", YNone);
            ("topics", YList [YStr "a : b"])]) =
  Ok ([("a", "b")] ++ [] ++ fan_out "g" "h")%list.
Proof.
  apply (proj2 (remappings_in_section_order _ _)).
  exists [("a", "b")], [], (fan_out "g" "h").
  split; [|split; [reflexivity|split; [|reflexivity]]].
  - cbn. constructor; [|constructor].
    apply (parses_to_sides "a " " b"). repeat split; simpl; discriminate.
  - cbn. exists [("g", "h")]. split; [reflexivity|]. split; [|reflexivity].
    repeat constructor; simpl; discriminate.
Defined.

Lemma get_remappings_clean (ros_remappings : yaml) (pairs : list remapping) :
  get_remappings ros_remappings = Ok pairs -> Forall clean pairs.
Proof.
  destruct ros_remappings; try discriminate.
  - intros [= <-]. constructor.
  - intros H. apply get_remappings_gives in H.
    destruct H as (topics & services & actions & Ht & Hs & Ha & ->).
    assert (Hsection : forall name found,
              section_gives items name found -> Forall clean found).
    { intros name found. unfold section_gives.
      destruct (dict_get name items) as [[]|];
        try contradiction; try (intros ->; constructor).
      induction 1 as [|item pair l found Hp _ IH]; constructor;
        [now apply (parses_to_clean item) | exact IH]. }
    apply Forall_app. split; [now apply (Hsection "topics")|].
    apply Forall_app. split; [now apply (Hsection "services")|].
    unfold actions_give in Ha.
    destruct (dict_get "actions" items) as [[]|];
      try contradiction; try (rewrite Ha; constructor).
    destruct Ha as (entries & _ & He & ->).
    induction He as [|[a b] entries Hab _ IH]; [constructor|].
    cbn [flat_map]. apply Forall_app. split; [|exact IH].
    now apply fan_out_clean.
Qed.

(** X13.  Every remapping that [get_remappings] returns has two names that
    are not empty, hold no colon and have no whitespace at either end. *)
Theorem remappings_are_clean (ros_remappings : yaml) (pairs : list remapping) :
  get_remappings ros_remappings = Ok pairs -> Forall clean pairs.
Proof. apply get_remappings_clean. Qed.

Lemma remappings_are_clean_witness :
  Forall clean [("a", "b c"); ("g/_action/feedback", "h/_action/feedback");
                ("g/_action/status", "h/_action/status");
                ("g/_action/cancel_goal", "h/_action/cancel_goal");
                ("g/_action/get_result", "h/_action/get_result");
                ("g/_action/send_goal", "h/_action/send_goal")].
Proof.
  apply (remappings_are_clean
           (YDict [("topics", YList [YStr "  a :b c "]);
                   ("actions", YList [YStr "g:h"])])).
  reflexivity.
Defined.

Lemma all_space_free_of_colon (s : string) : all_space s -> free_of ":" s.
Proof.
  induction s as [|a s IH]; [trivial|]. intros [Ha Hs]. split; [|now apply IH].
  intros ->. discriminate Ha.
Qed.

Lemma lstrip_all_space (s t : string) : all_space s -> lstrip (s ++ t) = lstrip t.
Proof.
  induction s as [|a s IH]; [reflexivity|]. intros [Ha Hs].
  cbn [append lstrip]. rewrite Ha. now apply IH.
Qed.

Lemma rstrip_all_space (s t : string) : all_space t -> rstrip (s ++ t) = rstrip s.
Proof.
  intros Ht. induction s as [|a s IH].
  - cbn [append]. induction t as [|b t IHt]; [reflexivity|].
    destruct Ht as [Hb Ht]. cbn [rstrip]. rewrite (IHt Ht). cbn [rstrip].
    now rewrite Hb.
  - cbn [append rstrip]. now rewrite IH.
Qed.

Lemma lstrip_append (s t : string) :
  lstrip s <> "" -> lstrip (s ++ t) = lstrip s ++ t.
Proof.
  induction s as [|a s IH]; [intros H; now elim H|]. cbn [append lstrip].
  destruct (isspace a); [exact IH | reflexivity].
Qed.

Lemma lstrip_empty_all_space (s : string) : lstrip s = "" -> all_space s.
Proof.
  induction s as [|a s IH]; [intros; exact I|]. cbn [lstrip].
  destruct (isspace a) eqn:Ea; [|discriminate]. intros H. split; [exact Ea|].
  now apply IH.
Qed.

Lemma lstrip_of_space (s : string) : all_space s -> lstrip s = "".
Proof.
  induction s as [|a s IH]; [reflexivity|]. intros [Ha Hs].
  cbn [lstrip]. rewrite Ha. now apply IH.
Qed.

(** [strip] does not see the whitespace around a text. *)
Lemma strip_padding (l s r : string) :
  all_space l -> all_space r -> strip (l ++ s ++ r) = strip s.
Proof.
  intros Hl Hr. unfold strip. rewrite (lstrip_all_space l _ Hl).
  destruct (lstrip s) eqn:E.
  - rewrite (lstrip_all_space s r (lstrip_empty_all_space s E)).
    now rewrite (lstrip_of_space r Hr).
  - rewrite lstrip_append by congruence. rewrite E.
    now apply rstrip_all_space.
Qed.

Lemma parse_items_context (section_name : string) (item item' : yaml)
    (rest : list yaml) :
  (forall result,
     parse_items section_name (item :: rest) result =
     parse_items section_name (item' :: rest) result) ->
  forall done result,
    parse_items section_name (done ++ item :: rest) result =
    parse_items section_name (done ++ item' :: rest) result.
Proof.
  intros H done. induction done as [|x done IH]; intros result; [apply H|].
  cbn [app parse_items]. destruct x; try reflexivity.
  destruct (negb (length (split ":" s) =? 2)%nat); [reflexivity|].
  destruct ((strip (nth 0 (split ":" s) "") =? "")%string
            || (strip (nth 1 (split ":" s) "") =? "")%string); [reflexivity|].
  apply IH.
Qed.

(** X14.  Whitespace around the source or the destination of a valid entry
    of a section makes no difference to what [parse_section] gives: the
    padded entry stands for the same remapping. *)
Theorem padding_is_ignored (ros_remappings ros_remappings' : list (string * yaml))
    (section_name : string) (done rest : list yaml)
    (a b l1 r1 l2 r2 : string) :
  valid_sides a b ->
  all_space l1 -> all_space r1 -> all_space l2 -> all_space r2 ->
  dict_get section_name ros_remappings =
    Some (YList (done ++ YStr ((l1 ++ a ++ r1) ++ ":" ++ (l2 ++ b ++ r2)) :: rest)) ->
  dict_get section_name ros_remappings' =
    Some (YList (done ++ YStr (a ++ ":" ++ b) :: rest)) ->
  parse_section ros_remappings section_name =
  parse_section ros_remappings' section_name.
Proof.
  intros (Ha & Hb & Hfrom & Hto) Hl1 Hr1 Hl2 Hr2 Hget Hget'.
  rewrite (parse_section_list _ _ _ Hget), (parse_section_list _ _ _ Hget').
  apply parse_items_context. intros result. cbn [parse_items].
  assert (Hpad : forall l s r,
            free_of ":" s -> all_space l -> all_space r ->
            free_of ":" (l ++ s ++ r)).
  { intros l s r Hs Hl Hr.
    repeat apply free_of_append; try assumption;
      now apply all_space_free_of_colon. }
  rewrite (split_sides (l1 ++ a ++ r1) (l2 ++ b ++ r2)) by now apply Hpad.
  rewrite (split_sides a b) by assumption.
  cbn [length Nat.eqb negb nth].
  rewrite (strip_padding l1 a r1 Hl1 Hr1), (strip_padding l2 b r2 Hl2 Hr2).
  now rewrite (eqb_empty _ Hfrom), (eqb_empty _ Hto).
Qed.

Lemma padding_is_ignored_witness :
  parse_section [("topics", YList [YStr "x:y"; YStr "  scan : /front/scan  "; YInt 3])]
    "topics" =
  parse_section [("topics", YList [YStr "x:y"; YStr "scan:/front/scan"; YInt 3])]
    "topics".
Proof.
  apply (padding_is_ignored _ _ "topics" [YStr "x:y"] [YInt 3]
           "scan" "/front/scan" "  " " " " " "  ").
  - repeat split; simpl; discriminate.
  - repeat split.
  - repeat split.
  - repeat split.
  - repeat split.
  - reflexivity.
  - reflexivity.
Defined.

Lemma expand_actions_prefix (entries : list (string * string)) :
  Forall (fun e => valid_sides (fst e) (snd e)) entries ->
  forall rest remapping_list,
    expand_actions (map (fun e => YStr (fst e ++ ":" ++ snd e)) entries ++ rest)
      remapping_list =
    expand_actions rest
      (remapping_list ++
       flat_map (fun e => fan_out (strip (fst e)) (strip (snd e))) entries).
Proof.
  induction 1 as [|[a b] entries (Ha & Hb & Hfrom & Hto) _ IH];
    intros rest remapping_list.
  - cbn [map app flat_map]. now rewrite app_nil_r.
  - cbn [map fst snd app expand_actions] in *.
    rewrite split_sides by assumption.
    cbn [length Nat.eqb negb nth].
    rewrite (eqb_empty _ Hfrom), (eqb_empty _ Hto). cbn [orb].
    rewrite IH. cbn [flat_map fst snd]. unfold fan_out at 2, suffixes.
    cbn [fold_left]. rewrite <- !app_assoc. reflexivity.
Qed.

(** X15.  In the actions section the first entry that is not valid ends the
    call with an error and nothing is returned, whatever comes after it: an
    entry that is not a string is reported by the name of its type, one
    without exactly one colon and one with a side that is empty once trimmed
    by the entry itself; the section is not named.  A value of the section
    that is neither null nor a list is an error too. *)
Theorem actions_are_validated (entries : list (string * string))
    (bad : yaml) (rest : list yaml) :
  Forall (fun e => valid_sides (fst e) (snd e)) entries ->
  let actions_yaml :=
    YList (map (fun e => YStr (fst e ++ ":" ++ snd e)) entries ++ bad :: rest) in
  (is_str bad = false ->
   get_remappings_for_actions actions_yaml =
     Err (ValueError (ActionMustBeStr (type_name bad))))
  /\ (forall s, bad = YStr s -> count_char ":" s <> 1 ->
      get_remappings_for_actions actions_yaml =
        Err (ValueError (InvalidActionFormat s)))
  /\ (forall a b, bad = YStr (a ++ ":" ++ b) ->
      free_of ":" a -> free_of ":" b -> strip a = "" \/ strip b = "" ->
      get_remappings_for_actions actions_yaml =
        Err (ValueError (EmptyActionField (a ++ ":" ++ b))))
  /\ (forall v, v <> YNone -> (forall l, v <> YList l) ->
      get_remappings_for_actions v = Err (ValueError (ExpectedListFor "actions"))).
Proof.
  intros Hentries actions_yaml. unfold actions_yaml, get_remappings_for_actions.
  rewrite (expand_actions_prefix entries Hentries).
  split; [|split; [|split]].
  - intros Hstr. destruct bad; try reflexivity; discriminate Hstr.
  - intros s -> Hcount. cbn [expand_actions]. rewrite split_length.
    destruct (count_char ":" s) as [|[|n]]; try reflexivity. congruence.
  - intros a b -> Ha Hb Hempty. cbn [expand_actions].
    rewrite split_sides by assumption. cbn [length Nat.eqb negb nth].
    destruct Hempty as [-> | ->]; [reflexivity|].
    now rewrite orb_true_r.
  - intros v Hnone Hlist.
    destruct v; try reflexivity; [congruence | now elim (Hlist l)].
Qed.

Lemma actions_are_validated_witness :
  get_remappings_for_actions (YList [YStr "g:h"; YStr "move"; YInt 3]) =
    Err (ValueError (InvalidActionFormat "move"))
  /\ get_remappings_for_actions (YList [YStr "g:h"; YStr "a: "]) =
       Err (ValueError (EmptyActionField "a: "))
  /\ get_remappings_for_actions (YList [YBool true]) =
       Err (ValueError (ActionMustBeStr "bool")).
Proof.
  assert (Hgh : Forall (fun e => valid_sides (fst e) (snd e)) [("g", "h")]).
  { repeat constructor; simpl; discriminate. }
  refine (conj _ (conj _ _)).
  - refine (proj1 (proj2
      (actions_are_validated [("g", "h")] (YStr "move") [YInt 3] Hgh))
      "move" eq_refl _).
    simpl. lia.
  - refine (proj1 (proj2 (proj2
      (actions_are_validated [("g", "h")] (YStr "a: ") [] Hgh)))
      "a" " " eq_refl _ _ _).
    + simpl. split; [discriminate | exact I].
    + simpl. split; [discriminate | exact I].
    + right. reflexivity.
  - refine (proj1 (actions_are_validated [] (YBool true) [] _) eq_refl).
    constructor.
Defined.

(** X16.  [get_remappings] reads the keys [topics], [services] and [actions]
    and no other: two mappings that agree on these three give the same
    result, so a section under any other name (a misspelt one as well) is
    passed over without an error. *)
Theorem other_sections_are_ignored (ros_remappings ros_remappings' : list (string * yaml)) :
  (forall section_name,
     In section_name ["topics"; "services"; "actions"] ->
     dict_get section_name ros_remappings = dict_get section_name ros_remappings') ->
  get_remappings (YDict ros_remappings) = get_remappings (YDict ros_remappings').
Proof.
  intros H. unfold get_remappings, parse_section.
  rewrite (H "topics"), (H "services"), (H "actions"); simpl; auto.
Qed.

Lemma other_sections_are_ignored_witness :
  get_remappings (YDict [("topic", YList [YStr "a:b:c"]); ("services", YList [YStr "s:t"])]) =
  get_remappings (YDict [("services", YList [YStr "s:t"])]).
Proof.
  apply other_sections_are_ignored.
  intros name Hin. simpl in Hin. decompose [or] Hin; subst; try contradiction;
    reflexivity.
Defined.

(** ** Loading and configuring *)

Lemma load_yaml_config_inv (read : string -> path_entry)
    (yaml_file : option string) (data : yaml) :
  load_yaml_config read yaml_file = Returns data ->
  exists file items,
    yaml_file = Some file /\ read file = Regular (inr data) /\ data = YDict items.
Proof.
  unfold load_yaml_config. destruct yaml_file as [file|]; [|discriminate].
  destruct (read file) as [| |[description|d]] eqn:Hread; try discriminate.
  destruct d; try discriminate. intros [= <-]. exists file, items.
  split; [reflexivity|]. split; [exact Hread | reflexivity].
Qed.

Lemma load_ros_node_config_inv (read : string -> path_entry)
    (yaml_file : option string) (config : yaml) (namespace : string) :
  load_ros_node_config read yaml_file = Returns (config, namespace) ->
  exists file items keys node_name node_items params,
    yaml_file = Some file
    /\ read file = Regular (inr (YDict items))
    /\ YDict items = nest keys config
    /\ marker_free_above keys config
    /\ config = YDict [(node_name, YDict node_items)]
    /\ dict_get marker node_items = Some (YDict params)
    /\ namespace = join "/" (drop_empty keys).
Proof.
  unfold load_ros_node_config.
  destruct (load_yaml_config read yaml_file) as [yaml_config|f] eqn:Hload;
    [|discriminate].
  destruct (load_yaml_config_inv _ _ _ Hload) as (file & items & -> & Hread & ->).
  destruct (get_node_config_and_ns (YDict items) "") as [found|e] eqn:Hfound;
    [|discriminate].
  intros [= ->].
  destruct (resolver_inv _ _ _ _ Hfound)
    as (keys & node_name & node_items & params & -> & Hparams & Hnest & Hfree & ->).
  exists file, items, keys, node_name, node_items, params.
  repeat split; try assumption. apply accumulate_join.
Qed.

(** X17.  Whenever [load_ros_node_config] returns, the path is a regular
    file whose content is a mapping; the configuration returned is the node
    found in it under a chain of single keys, with [ros__parameters] bound
    to a mapping, and the namespace is these keys joined by "/" (empty keys
    at the front left out). *)
Theorem load_returns_node (read : string -> path_entry)
    (yaml_file : option string) (config : yaml) (namespace : string) :
  load_ros_node_config read yaml_file = Returns (config, namespace) ->
  exists file items keys node_name node_items params,
    yaml_file = Some file
    /\ read file = Regular (inr (YDict items))
    /\ YDict items = nest keys config
    /\ marker_free_above keys config
    /\ config = YDict [(node_name, YDict node_items)]
    /\ dict_get marker node_items = Some (YDict params)
    /\ namespace = join "/" (drop_empty keys).
Proof. apply load_ros_node_config_inv. Qed.

Lemma load_returns_node_witness :
  exists file items keys node_name node_items params,
    Some "/etc/arm.yaml" = Some file
    /\ read_arm file = Regular (inr (YDict items))
    /\ YDict items = nest keys (YDict [("arm_node", YDict [("ros__parameters", arm_parameters)])])
    /\ marker_free_above keys (YDict [("arm_node", YDict [("ros__parameters", arm_parameters)])])
    /\ YDict [("arm_node", YDict [("ros__parameters", arm_parameters)])] =
         YDict [(node_name, YDict node_items)]
    /\ dict_get marker node_items = Some (YDict params)
    /\ "robot/arm" = join "/" (drop_empty keys).
Proof.
  apply (load_returns_node read_arm (Some "/etc/arm.yaml")).
  reflexivity.
Defined.

Lemma re_search_some_inv (r : regex) (s : string) (m : groups) :
  re_search r s = Some m ->
  exists before t, s = before ++ t /\ re_match r t = Some m.
Proof.
  induction s as [|a s IH]; cbn [re_search].
  - destruct (re_match r "") eqn:E; [|discriminate].
    intros [= <-]. now exists "", "".
  - destruct (re_match r (String a s)) eqn:E.
    + intros [= <-]. now exists "", (String a s).
    + intros H. destruct (IH H) as (before & t & -> & Ht).
      now exists (String a before), t.
Qed.

Lemma append_nonempty_r (s t : string) : t <> "" -> s ++ t <> "".
Proof. destruct s; [trivial | discriminate]. Qed.

Lemma path_join_nonempty (a b : string) : b <> "" -> path_join a b <> "".
Proof.
  intros Hb. unfold path_join. destruct (startswith b "/"); [exact Hb|].
  destruct ((a =? "")%string || endswith a "/").
  - now apply append_nonempty_r.
  - apply append_nonempty_r. discriminate.
Qed.

(** An expanded value is empty only if the value was. *)
Lemma expand_value_nonempty (lookup : string -> res string) (value stored : string) :
  expand_value lookup value = Ok stored -> value <> "" -> stored <> "".
Proof.
  unfold expand_value.
  destruct (re_search pattern1 value) as [m|] eqn:H1.
  - destruct (re_search_some_inv _ _ _ H1) as (before & t & _ & Ht).
    rewrite re_match_pattern1 in Ht.
    destruct (match_package_sound _ _ Ht)
      as (pkg & rest & after & -> & (_ & _ & _ & Hrest & _) & _).
    destruct (lookup (group [pkg; rest] 1)); [|discriminate].
    intros [= <-] _. now apply path_join_nonempty.
  - destruct (re_search pattern2 value) as [m|] eqn:H2.
    + destruct (re_search_some_inv _ _ _ H2) as (before & t & _ & Ht).
      rewrite re_match_pattern2 in Ht.
      destruct (match_file_sound _ _ Ht) as (rest & after & -> & _ & _).
      intros [= <-] _. discriminate.
    + now intros [= <-].
Qed.

Lemma dict_get_same_kind (items items' : list (string * yaml)) (key : string)
    (v : yaml) :
  Forall2 same_kind items items' ->
  dict_get key items = Some v ->
  exists v', dict_get key items' = Some v' /\ type_name v = type_name v'.
Proof.
  induction 1 as [|[k x] [k' x'] items items' [Hk Hx] _ IH]; [discriminate|].
  cbn [fst snd] in Hk, Hx. subst k'. cbn [dict_get].
  destruct (k =? key)%string; [|exact IH].
  intros [= <-]. now exists x'.
Qed.

(** What is true stays true through the expansion. *)
Lemma truthy_stored (lookup : string -> res string) (v v' : yaml) :
  stored_for lookup v v' -> truthy v = true -> truthy v' = true.
Proof.
  destruct v; cbn [stored_for]; try (now intros ->).
  - intros (s' & Hs' & ->). cbn [truthy]. rewrite !negb_true_iff.
    intros Hs. apply String.eqb_neq in Hs. apply String.eqb_neq.
    now apply (expand_value_nonempty lookup s).
  - intros Hrun Hv. rewrite expand_filenames_dict in Hrun.
    injection Hrun as <- _.
    pose proof (expand_items_same_kind lookup items) as Hkind.
    destruct Hkind; [discriminate Hv | reflexivity].
Qed.

Lemma dict_get_or_none_truthy (key : string) (items : list (string * yaml)) :
  truthy (dict_get_or_none key items) = true ->
  exists v, dict_get key items = Some v /\ truthy v = true.
Proof.
  unfold dict_get_or_none. destruct (dict_get key items) as [v|]; [|discriminate].
  intros H. now exists v.
Qed.

(** What a returned result of [configure] tells *)
Lemma configure_inv (read : string -> path_entry) (lookup : string -> res string)
    (config_file : string) (actions : list launch_entity) :
  configure read lookup (Returns config_file) = Returns actions ->
  exists node_name node_items namespace parameters_items ros_execution
         remapping_list ros_parameters' package executable,
    load_ros_node_config read (Some config_file) =
      Returns (YDict [(node_name, YDict node_items)], namespace)
    /\ dict_get "ros__parameters" node_items = Some (YDict parameters_items)
    /\ dict_get "ros_execution" parameters_items = Some (YDict ros_execution)
    /\ match dict_get "ros_remappings" parameters_items with
       | None | Some YNone => Ok []
       | Some ros_remappings => get_remappings ros_remappings
       end = Ok remapping_list
    /\ expand_filenames lookup (YDict parameters_items) = (ros_parameters', None)
    /\ (exists raw, dict_get "node_package" ros_execution = Some raw
                    /\ truthy raw = true /\ stored_for lookup raw package)
    /\ (exists raw, dict_get "node_executable" ros_execution = Some raw
                    /\ truthy raw = true /\ stored_for lookup raw executable)
    /\ value_at ros_parameters' ["ros_execution"] =
         Some (YDict (fst (expand_items lookup (expand_filenames lookup) ros_execution)))
    /\ let node :=
         Node.make package executable namespace node_name
           [ros_parameters'] remapping_list
           (after_expansion lookup (dict_get_default "output" (YStr "screen") ros_execution))
           (after_expansion lookup (dict_get_default "emulate_tty" (YBool false) ros_execution))
           (after_expansion lookup (dict_get_default "respawn" (YBool false) ros_execution))
           (after_expansion lookup (dict_get_default "respawn_delay" (YInt 0) ros_execution)) in
       actions =
         if truthy (dict_get_default "on_node_exit_shutdown_system" (YBool false)
                      (fst (expand_items lookup (expand_filenames lookup) ros_execution)))
         then [NodeAction node; ShutdownOnProcessExit node]
         else [NodeAction node].
Proof.
  unfold configure.
  destruct (load_ros_node_config read (Some config_file)) as [[node_config namespace]|f]
    eqn:Hload; [|discriminate].
  destruct (load_ros_node_config_inv _ _ _ _ Hload)
    as (file & items & keys & node_name & node_items & params & _ & _ & _ & _
        & -> & Hparams & _).
  unfold marker in Hparams. rewrite Hparams.
  unfold dict_get_or_none at 1.
  destruct (dict_get "ros_execution" params) as [execution|] eqn:Hexec;
    [|discriminate].
  destruct execution as [ | | | | | |ros_execution]; try discriminate.
  destruct (truthy (dict_get_or_none "node_package" ros_execution)) eqn:Hpkg;
    [|discriminate].
  destruct (truthy (dict_get_or_none "node_executable" ros_execution)) eqn:Hexe;
    [|discriminate].
  cbn [negb].
  destruct (match dict_get "ros_remappings" params with
            | None | Some YNone => Ok []
            | Some ros_remappings => get_remappings ros_remappings
            end) as [remapping_list|e] eqn:Hremap; [|discriminate].
  destruct (expand_filenames lookup (YDict params)) as [ros_parameters' raised]
    eqn:Hrun.
  destruct raised; [discriminate|].
  assert (Hexec' : exists stored,
            dict_get "ros_execution"
              (fst (expand_items lookup (expand_filenames lookup) params)) =
              Some stored
            /\ expand_filenames lookup (YDict ros_execution) = (stored, None)).
  { rewrite expand_filenames_dict in Hrun. injection Hrun as _ Hr.
    apply (expand_items_get lookup params _ "ros_execution" _
             (eq_trans (surjective_pairing _) (f_equal (pair _) Hr)) Hexec). }
  destruct Hexec' as (stored & Hstored & Hsub).
  rewrite expand_filenames_dict in Hsub. injection Hsub as <- Hsubr.
  assert (Hitems : expand_items lookup (expand_filenames lookup) ros_execution =
                   (fst (expand_items lookup (expand_filenames lookup) ros_execution),
                    None)).
  { rewrite <- Hsubr. apply surjective_pairing. }
  destruct (dict_get_or_none_truthy _ _ Hpkg) as (rawp & Hrawp & Htp).
  destruct (dict_get_or_none_truthy _ _ Hexe) as (rawe & Hrawe & Hte).
  destruct (expand_items_get lookup _ _ _ _ Hitems Hrawp) as (package & Hp & Hsp).
  destruct (expand_items_get lookup _ _ _ _ Hitems Hrawe) as (executable & He & Hse).
  rewrite Hp, He. intros H.
  exists node_name, node_items, namespace, params, ros_execution, remapping_list,
    ros_parameters', package, executable.
  split; [reflexivity|]. split; [exact Hparams|]. split; [exact Hexec|].
  split; [exact Hremap|]. split; [exact Hrun|].
  split; [now exists rawp|]. split; [now exists rawe|].
  split.
  - rewrite expand_filenames_dict in Hrun. injection Hrun as <- _.
    cbn [value_at]. now rewrite Hstored.
  - cbv zeta.
    destruct (truthy (dict_get_default "on_node_exit_shutdown_system" (YBool false)
                (fst (expand_items lookup (expand_filenames lookup) ros_execution))));
      now injection H as <-.
Qed.

(** X18.  [configure] never fails on a lookup of its own: whatever the file
    system holds and whatever the package index answers, a failure is one
    of the loader, of the resolver, of the remapping expander, of the
    package index, or one of the two errors about [ros_execution]; reading
    the node name, [ros__parameters], [node_package] and [node_executable]
    cannot raise. *)
Theorem configure_lookups_are_safe (read : string -> path_entry)
    (lookup : string -> res string) (config_file : string) (f : failure) :
  configure read lookup (Returns config_file) = Fails f -> provided_for f.
Proof.
  unfold configure.
  destruct (load_ros_node_config read (Some config_file)) as [[node_config namespace]|f']
    eqn:Hload.
  - destruct (load_ros_node_config_inv _ _ _ _ Hload)
      as (file & items & keys & node_name & node_items & params & _ & _ & _ & _
          & -> & Hparams & _).
    unfold marker in Hparams. rewrite Hparams.
    unfold dict_get_or_none at 1.
    destruct (dict_get "ros_execution" params) as [execution|] eqn:Hexec;
      [|now intros [= <-]].
    destruct execution as [ | | | | | |ros_execution]; try now intros [= <-].
    destruct (truthy (dict_get_or_none "node_package" ros_execution)) eqn:Hpkg;
      [|now intros [= <-]].
    destruct (truthy (dict_get_or_none "node_executable" ros_execution)) eqn:Hexe;
      [|now intros [= <-]].
    cbn [negb].
    destruct (match dict_get "ros_remappings" params with
              | None | Some YNone => Ok []
              | Some ros_remappings => get_remappings ros_remappings
              end) as [remapping_list|e]; [|now intros [= <-]].
    destruct (expand_filenames lookup (YDict params)) as [ros_parameters' raised].
    destruct raised; [now intros [= <-]|].
    destruct (dict_get_or_none_truthy _ _ Hpkg) as (rawp & Hrawp & _).
    destruct (dict_get_or_none_truthy _ _ Hexe) as (rawe & Hrawe & _).
    pose proof (expand_items_same_kind lookup ros_execution) as Hkind.
    destruct (dict_get_same_kind _ _ _ _ Hkind Hrawp) as (package & -> & _).
    destruct (dict_get_same_kind _ _ _ _ Hkind Hrawe) as (executable & -> & _).
    destruct (truthy (dict_get_default _ _ _)); discriminate.
  - intros [= <-]. revert Hload. unfold load_ros_node_config, load_yaml_config.
    destruct (read config_file) as [| |[description|data]];
      try (now intros [= <-]).
    destruct data; try (now intros [= <-]).
    destruct (get_node_config_and_ns (YDict items) ""); [discriminate|].
    now intros [= <-].
Qed.

Lemma configure_lookups_are_safe_witness :
  provided_for (Raised (PackageNotFoundError "foo")).
Proof.
  apply (configure_lookups_are_safe read_arm
           (fun pkg => Err (PackageNotFoundError pkg)) "/etc/arm.yaml").
  reflexivity.
Defined.

(** X19.  When [configure] returns, it returns one [Node], named by the only
    key of the configuration that [load_ros_node_config] gave and placed in
    the namespace that it gave, and after it at most one handler, which
    shuts the launch down when that same node exits. *)
Theorem configure_launches_one_node (read : string -> path_entry)
    (lookup : string -> res string) (config_file : string)
    (actions : list launch_entity) :
  configure read lookup (Returns config_file) = Returns actions ->
  exists node node_items,
    (actions = [NodeAction node]
     \/ actions = [NodeAction node; ShutdownOnProcessExit node])
    /\ load_ros_node_config read (Some config_file) =
         Returns (YDict [(Node.name node, YDict node_items)], Node.namespace node).
Proof.
  intros H. destruct (configure_inv _ _ _ _ H)
    as (node_name & node_items & namespace & params & execution & remapping_list
        & params' & package & executable & Hload & _ & _ & _ & _ & _ & _ & _ & Hactions).
  cbv zeta in Hactions.
  eexists; exists node_items. split.
  - destruct (truthy _) in Hactions; [right | left]; exact Hactions.
  - exact Hload.
Qed.

Lemma configure_launches_one_node_witness :
  exists node node_items,
    (configure_actions_of_arm = [NodeAction node]
     \/ configure_actions_of_arm = [NodeAction node; ShutdownOnProcessExit node])
    /\ load_ros_node_config read_arm (Some "/etc/arm.yaml") =
         Returns (YDict [(Node.name node, YDict node_items)], Node.namespace node).
Proof.
  apply (configure_launches_one_node read_arm lookup_foo "/etc/arm.yaml").
  reflexivity.
Defined.

(** X20.  The package and the executable given to [Node] are never missing,
    null or empty, and they are the values that the parameters given to the
    same [Node] hold under [ros_execution]: they are read after the
    expansion, so a URI in them is expanded. *)
Theorem configure_package_and_executable (read : string -> path_entry)
    (lookup : string -> res string) (config_file : string)
    (actions : list launch_entity) (node : Node.t) :
  configure read lookup (Returns config_file) = Returns actions ->
  In (NodeAction node) actions ->
  truthy (Node.package node) = true
  /\ truthy (Node.executable node) = true
  /\ exists ros_parameters,
       Node.parameters node = [ros_parameters]
       /\ value_at ros_parameters ["ros_execution"; "node_package"] =
            Some (Node.package node)
       /\ value_at ros_parameters ["ros_execution"; "node_executable"] =
            Some (Node.executable node).
Proof.
  intros H Hin. destruct (configure_inv _ _ _ _ H)
    as (node_name & node_items & namespace & params & execution & remapping_list
        & params' & package & executable & _ & _ & Hexec & _ & Hrun
        & (rawp & Hrawp & Htp & Hsp) & (rawe & Hrawe & Hte & Hse) & Hat & Hactions).
  cbv zeta in Hactions.
  assert (Hnode : node =
            Node.make package executable namespace node_name [params'] remapping_list
              (after_expansion lookup (dict_get_default "output" (YStr "screen") execution))
              (after_expansion lookup (dict_get_default "emulate_tty" (YBool false) execution))
              (after_expansion lookup (dict_get_default "respawn" (YBool false) execution))
              (after_expansion lookup (dict_get_default "respawn_delay" (YInt 0) execution))).
  { destruct (truthy _) in Hactions; subst actions; cbn [In] in Hin;
      decompose [or] Hin; try contradiction; try discriminate; congruence. }
  subst node. cbn [Node.package Node.executable Node.parameters].
  split; [exact (truthy_stored lookup _ _ Hsp Htp)|].
  split; [exact (truthy_stored lookup _ _ Hse Hte)|].
  exists params'. split; [reflexivity|].
  destruct params'; try discriminate Hat. cbn [value_at] in Hat |- *.
  destruct (dict_get "ros_execution" items) as [stored|]; [|discriminate].
  injection Hat as ->.
  rewrite expand_filenames_dict in Hrun. injection Hrun as _ Hr.
  assert (Hsub : expand_filenames lookup (YDict execution) =
                 (YDict (fst (expand_items lookup (expand_filenames lookup) execution)),
                  None)).
  { destruct (expand_items_get lookup params _ "ros_execution" _
                (eq_trans (surjective_pairing _) (f_equal (pair _) Hr)) Hexec)
      as (stored & _ & Hstored).
    cbn [stored_for] in Hstored. rewrite Hstored.
    rewrite expand_filenames_dict in Hstored. now injection Hstored as <- _. }
  rewrite expand_filenames_dict in Hsub. injection Hsub as Hsubr.
  assert (Hitems : expand_items lookup (expand_filenames lookup) execution =
                   (fst (expand_items lookup (expand_filenames lookup) execution), None)).
  { rewrite <- Hsubr. apply surjective_pairing. }
  destruct (expand_items_get lookup _ _ _ _ Hitems Hrawp) as (p' & Hp' & Hsp').
  destruct (expand_items_get lookup _ _ _ _ Hitems Hrawe) as (e' & He' & Hse').
  rewrite Hp', He'.
  assert (Hfun : forall v a b, stored_for lookup v a -> stored_for lookup v b -> a = b).
  { intros v a b. destruct v; cbn [stored_for]; try congruence.
    intros (s1 & H1 & ->) (s2 & H2 & ->). congruence. }
  now rewrite (Hfun _ _ _ Hsp Hsp'), (Hfun _ _ _ Hse Hse').
Qed.

Lemma configure_package_and_executable_witness :
  truthy (Node.package arm_node) = true
  /\ truthy (Node.executable arm_node) = true
  /\ exists ros_parameters,
       Node.parameters arm_node = [ros_parameters]
       /\ value_at ros_parameters ["ros_execution"; "node_package"] =
            Some (Node.package arm_node)
       /\ value_at ros_parameters ["ros_execution"; "node_executable"] =
            Some (Node.executable arm_node).
Proof.
  apply (configure_package_and_executable read_arm lookup_foo "/etc/arm.yaml"
           configure_actions_of_arm arm_node).
  - reflexivity.
  - left. reflexivity.
Defined.

(** X21.  [output], [emulate_tty], [respawn] and [respawn_delay] are read
    before the expansion, with "screen", False, False and 0 for a key that
    is missing (not for a key bound to null): a value that is not a mapping
    is given to [Node] as it is written in the file, so a URI in a string
    reaches [Node] unexpanded; a mapping is the object that
    [expand_filenames] changes in place, so [Node] is given its expansion,
    which is also what the parameters given to [Node] hold. *)
Theorem configure_options (read : string -> path_entry)
    (lookup : string -> res string) (config_file : string)
    (actions : list launch_entity) (node : Node.t) :
  configure read lookup (Returns config_file) = Returns actions ->
  In (NodeAction node) actions ->
  exists node_items parameters_items ros_execution,
    load_ros_node_config read (Some config_file) =
      Returns (YDict [(Node.name node, YDict node_items)], Node.namespace node)
    /\ dict_get "ros__parameters" node_items = Some (YDict parameters_items)
    /\ dict_get "ros_execution" parameters_items = Some (YDict ros_execution)
    /\ option_given lookup (Node.parameters node) "output"
         (dict_get_default "output" (YStr "screen") ros_execution)
         (Node.output node)
    /\ option_given lookup (Node.parameters node) "emulate_tty"
         (dict_get_default "emulate_tty" (YBool false) ros_execution)
         (Node.emulate_tty node)
    /\ option_given lookup (Node.parameters node) "respawn"
         (dict_get_default "respawn" (YBool false) ros_execution)
         (Node.respawn node)
    /\ option_given lookup (Node.parameters node) "respawn_delay"
         (dict_get_default "respawn_delay" (YInt 0) ros_execution)
         (Node.respawn_delay node).
Proof.
  intros H Hin. destruct (configure_inv _ _ _ _ H)
    as (node_name & node_items & namespace & params & execution & remapping_list
        & params' & package & executable & Hload & Hparams & Hexec & _ & Hrun
        & _ & _ & Hat & Hactions).
  cbv zeta in Hactions.
  assert (Hnode : node =
            Node.make package executable namespace node_name [params'] remapping_list
              (after_expansion lookup (dict_get_default "output" (YStr "screen") execution))
              (after_expansion lookup (dict_get_default "emulate_tty" (YBool false) execution))
              (after_expansion lookup (dict_get_default "respawn" (YBool false) execution))
              (after_expansion lookup (dict_get_default "respawn_delay" (YInt 0) execution))).
  { destruct (truthy _) in Hactions; subst actions; cbn [In] in Hin;
      decompose [or] Hin; try contradiction; try discriminate; congruence. }
  subst node. exists node_items, params, execution.
  cbn [Node.name Node.namespace Node.parameters Node.output Node.emulate_tty
       Node.respawn Node.respawn_delay].
  split; [exact Hload|]. split; [exact Hparams|]. split; [exact Hexec|].
  assert (Hitems : expand_items lookup (expand_filenames lookup) execution =
                   (fst (expand_items lookup (expand_filenames lookup) execution), None)).
  { rewrite expand_filenames_dict in Hrun. injection Hrun as _ Hr.
    destruct (expand_items_get lookup params _ "ros_execution" _
                (eq_trans (surjective_pairing _) (f_equal (pair _) Hr)) Hexec)
      as (stored & _ & Hstored).
    cbn [stored_for] in Hstored. rewrite expand_filenames_dict in Hstored.
    injection Hstored as _ Hsr. rewrite <- Hsr. apply surjective_pairing. }
  assert (Hoption : forall key default,
            is_dict default = false ->
            option_given lookup [params'] key
              (dict_get_default key default execution)
              (after_expansion lookup (dict_get_default key default execution))).
  { intros key default Hdefault. unfold option_given, dict_get_default.
    destruct (dict_get key execution) as [raw|] eqn:Hraw.
    - split.
      + intros Hraw'. destruct raw; try reflexivity. discriminate Hraw'.
      + intros Hraw'. destruct raw; try discriminate Hraw'.
        destruct (expand_items_get lookup _ _ _ _ Hitems Hraw)
          as (stored & Hget & Hstored).
        cbn [stored_for] in Hstored. cbn [after_expansion].
        rewrite Hstored. cbn [fst]. split; [reflexivity|].
        exists params'. split; [reflexivity|].
        destruct params'; try discriminate Hat. cbn [value_at] in Hat |- *.
        destruct (dict_get "ros_execution" items0) as [sub|]; [|discriminate].
        injection Hat as ->. now rewrite Hget.
    - split.
      + intros _. destruct default; try reflexivity. discriminate Hdefault.
      + intros Hd. rewrite Hdefault in Hd. discriminate Hd. }
  repeat (split; [now apply Hoption|]). now apply Hoption.
Qed.

Lemma configure_options_witness :
  exists node_items parameters_items ros_execution,
    load_ros_node_config read_logged (Some "/etc/logged.yaml") =
      Returns (YDict [(Node.name logged_node, YDict node_items)],
               Node.namespace logged_node)
    /\ dict_get "ros__parameters" node_items = Some (YDict parameters_items)
    /\ dict_get "ros_execution" parameters_items = Some (YDict ros_execution)
    /\ option_given lookup_foo (Node.parameters logged_node) "output"
         (dict_get_default "output" (YStr "screen") ros_execution)
         (Node.output logged_node)
    /\ option_given lookup_foo (Node.parameters logged_node) "emulate_tty"
         (dict_get_default "emulate_tty" (YBool false) ros_execution)
         (Node.emulate_tty logged_node)
    /\ option_given lookup_foo (Node.parameters logged_node) "respawn"
         (dict_get_default "respawn" (YBool false) ros_execution)
         (Node.respawn logged_node)
    /\ option_given lookup_foo (Node.parameters logged_node) "respawn_delay"
         (dict_get_default "respawn_delay" (YInt 0) ros_execution)
         (Node.respawn_delay logged_node).
Proof.
  apply (configure_options read_logged lookup_foo "/etc/logged.yaml"
           [NodeAction logged_node] logged_node).
  - reflexivity.
  - left. reflexivity.
Defined.

(** X22.  The remappings given to [Node] are those of [ros_remappings] as
    written (none when the key is missing or null), every one of them with
    two names that are not empty, hold no colon and are trimmed. *)
Theorem configure_remappings (read : string -> path_entry)
    (lookup : string -> res string) (config_file : string)
    (actions : list launch_entity) (node : Node.t) :
  configure read lookup (Returns config_file) = Returns actions ->
  In (NodeAction node) actions ->
  Forall clean (Node.remappings node)
  /\ exists node_items parameters_items,
       load_ros_node_config read (Some config_file) =
         Returns (YDict [(Node.name node, YDict node_items)], Node.namespace node)
       /\ dict_get "ros__parameters" node_items = Some (YDict parameters_items)
       /\ match dict_get "ros_remappings" parameters_items with
          | None | Some YNone => Ok []
          | Some ros_remappings => get_remappings ros_remappings
          end = Ok (Node.remappings node).
Proof.
  intros H Hin. destruct (configure_inv _ _ _ _ H)
    as (node_name & node_items & namespace & params & execution & remapping_list
        & params' & package & executable & Hload & Hparams & _ & Hremap & _
        & _ & _ & _ & Hactions).
  cbv zeta in Hactions.
  assert (Hnode : node =
            Node.make package executable namespace node_name [params'] remapping_list
              (after_expansion lookup (dict_get_default "output" (YStr "screen") execution))
              (after_expansion lookup (dict_get_default "emulate_tty" (YBool false) execution))
              (after_expansion lookup (dict_get_default "respawn" (YBool false) execution))
              (after_expansion lookup (dict_get_default "respawn_delay" (YInt 0) execution))).
  { destruct (truthy _) in Hactions; subst actions; cbn [In] in Hin;
      decompose [or] Hin; try contradiction; try discriminate; congruence. }
  subst node. cbn [Node.remappings Node.name Node.namespace]. split.
  - destruct (dict_get "ros_remappings" params) as [v|].
    + destruct v; try (now apply (get_remappings_clean _ _ Hremap)).
      injection Hremap as <-. constructor.
    + injection Hremap as <-. constructor.
  - now exists node_items, params.
Qed.

Lemma configure_remappings_witness :
  Forall clean (Node.remappings arm_node)
  /\ exists node_items parameters_items,
       load_ros_node_config read_arm (Some "/etc/arm.yaml") =
         Returns (YDict [(Node.name arm_node, YDict node_items)], Node.namespace arm_node)
       /\ dict_get "ros__parameters" node_items = Some (YDict parameters_items)
       /\ match dict_get "ros_remappings" parameters_items with
          | None | Some YNone => Ok []
          | Some ros_remappings => get_remappings ros_remappings
          end = Ok (Node.remappings arm_node).
Proof.
  apply (configure_remappings read_arm lookup_foo "/etc/arm.yaml"
           configure_actions_of_arm arm_node).
  - reflexivity.
  - left. reflexivity.
Defined.

(** X23.  [configure] checks [ros_execution] first: when it is missing or is
    not a mapping, and when [node_package] or [node_executable] (asked in
    this order) is missing, null, empty, zero or false, the call fails with
    the error about it, whatever the remappings are and without a package
    being looked up. *)
Theorem configure_requires_execution (read : string -> path_entry)
    (lookup : string -> res string) (config_file node_name namespace : string)
    (node_items parameters_items : list (string * yaml)) :
  load_ros_node_config read (Some config_file) =
    Returns (YDict [(node_name, YDict node_items)], namespace) ->
  dict_get "ros__parameters" node_items = Some (YDict parameters_items) ->
  (is_dict (dict_get_or_none "ros_execution" parameters_items) = false ->
   configure read lookup (Returns config_file) =
     Fails (ConfigureError ExecutionMustBeDict))
  /\ (forall ros_execution,
        dict_get "ros_execution" parameters_items = Some (YDict ros_execution) ->
        truthy (dict_get_or_none "node_package" ros_execution) = false ->
        configure read lookup (Returns config_file) =
          Fails (ConfigureError (FieldRequired "node_package")))
  /\ (forall ros_execution,
        dict_get "ros_execution" parameters_items = Some (YDict ros_execution) ->
        truthy (dict_get_or_none "node_package" ros_execution) = true ->
        truthy (dict_get_or_none "node_executable" ros_execution) = false ->
        configure read lookup (Returns config_file) =
          Fails (ConfigureError (FieldRequired "node_executable"))).
Proof.
  intros Hload Hparams. unfold configure. rewrite Hload, Hparams.
  split; [|split].
  - intros H. now destruct (dict_get_or_none "ros_execution" parameters_items).
  - intros ros_execution Hexec Hpkg. unfold dict_get_or_none at 1.
    now rewrite Hexec, Hpkg.
  - intros ros_execution Hexec Hpkg Hexe. unfold dict_get_or_none at 1.
    now rewrite Hexec, Hpkg, Hexe.
Qed.

Lemma configure_requires_execution_witness :
  configure read_bare lookup_foo (Returns "/etc/bare.yaml") =
    Fails (ConfigureError (FieldRequired "node_package")).
Proof.
  refine (proj1 (proj2
    (configure_requires_execution read_bare lookup_foo "/etc/bare.yaml" "n" ""
       [("ros__parameters",
         YDict [("ros_execution", YDict [("node_package", YStr "")]);
                ("ros_remappings", YDict [("topics", YInt 5)]);
                ("model", YStr "package://bar/x")])]
       [("ros_execution", YDict [("node_package", YStr "")]);
        ("ros_remappings", YDict [("topics", YInt 5)]);
        ("model", YStr "package://bar/x")]
       eq_refl eq_refl))
    [("node_package", YStr "")] eq_refl eq_refl).
Defined.
